(** * flame_pdf: the document scanner of [python-worker/processor.py]

    A shallow embedding of [SmartImageProcessor] and the properties of its
    detection / validation / rectification pipeline.

    Conventions of the embedding.
    - NumPy / Python floating-point values are modelled by the real numbers
      [R]: every arithmetic operation is exact, there is no rounding, no
      overflow, no infinity and no NaN.
    - Python integers (image shapes, output sizes) are [Z].
    - Code that can raise returns a [result]; [try ... except Exception] is
      [try_except].
    - The OpenCV and Pillow pixel operations are not part of the repository:
      they are the fields of the class [ImagingLib], and every model of the
      pipeline is parametric in it.  The two purely geometric OpenCV
      measures the properties talk about, [contourArea] and [arcLength],
      are written out. *)

From Stdlib Require Import Strings.String Strings.Ascii DecimalString.
From Stdlib Require Import Reals Lra Lia ZArith List Bool Permutation.
From Stdlib Require Import Sorting.Sorted.
Import ListNotations.

Local Open Scope R_scope.

(** ** Exceptions and fallible computations *)

Inductive exn : Type :=
| ValueError
| ZeroDivisionError
| LibraryError (code : Z).

Inductive result (A : Type) : Type :=
| Ok (a : A)
| Raise (e : exn).

Arguments Ok {A} a.
Arguments Raise {A} e.

Definition bind {A B : Type} (c : result A) (k : A -> result B) : result B :=
  match c with
  | Ok a => k a
  | Raise e => Raise e
  end.

(** [try: body except Exception as e: handler e] *)
Definition try_except {A : Type} (body : result A) (handler : exn -> result A)
  : result A :=
  match body with
  | Ok a => Ok a
  | Raise e => handler e
  end.

Declare Scope result_scope.
Delimit Scope result_scope with result.
Notation "x <- c ;; k" := (bind c (fun x => k))
  (at level 61, c at next level, right associativity) : result_scope.
Notation "' pat <- c ;; k" := (bind c (fun x => match x with pat => k end))
  (at level 61, pat pattern, c at next level, right associativity) : result_scope.

(** ** Floats as reals: comparisons and [int()] *)

Definition Rltb (x y : R) : bool := if Rlt_dec x y then true else false.
Definition Rleb (x y : R) : bool := if Rle_dec x y then true else false.
Definition Reqb (x y : R) : bool := if Req_dec_T x y then true else false.

(** Python's [int(x)] on a float: truncation towards zero. *)
Definition py_int (x : R) : Z :=
  if Rle_dec 0 x then Int_part x else (- Int_part (- x))%Z.

(** Python's [a / b] on floats. *)
Definition py_div (a b : R) : result R :=
  if Req_dec_T b 0 then Raise ZeroDivisionError else Ok (a / b).

(** ** Points, contours and the OpenCV contour measures *)

Abbreviation point := (R * R)%type (only parsing).

Definition origin : point := (0, 0).

(** A contour, a polygon approximation and a corner array are all arrays of
    2D points. *)
Abbreviation contour := (list (R * R)) (only parsing).

Fixpoint shoelace_from (prev : point) (c : contour) : R :=
  match c with
  | [] => 0
  | p :: rest => (fst prev * snd p - snd prev * fst p) + shoelace_from p rest
  end.

(** [cv2.contourArea(c)] (not oriented): Green's formula, starting from the
    last point, halved, in absolute value. *)
Definition contourArea (c : contour) : R :=
  Rabs (shoelace_from (last c origin) c * 0.5).

Definition dist (a b : point) : R :=
  sqrt ((fst a - fst b) * (fst a - fst b) + (snd a - snd b) * (snd a - snd b)).

Fixpoint arc_from (prev : point) (c : contour) : R :=
  match c with
  | [] => 0
  | p :: rest => dist prev p + arc_from p rest
  end.

(** [cv2.arcLength(c, True)]: the perimeter of the closed curve. *)
Definition arcLength (c : contour) : R := arc_from (last c origin) c.

(** [corners * ratio] *)
Definition scale (ratio : R) (c : contour) : contour :=
  map (fun p => (fst p * ratio, snd p * ratio)) c.

(** ** Quadrilateral Validator: [_is_valid_quadrilateral] *)

Definition vsub (p q : point) : point := (fst p - fst q, snd p - snd q).

(** [np.linalg.norm] *)
Definition norm (v : point) : R := sqrt (fst v * fst v + snd v * snd v).

(** [np.dot] *)
Definition dot (v w : point) : R := fst v * fst w + snd v * snd w.

(** [np.clip(x, lo, hi)] *)
Definition clip (x lo hi : R) : R :=
  if Rlt_dec x lo then lo else if Rlt_dec hi x then hi else x.

(** [np.degrees] *)
Definition degrees (a : R) : R := a * (180 / PI).

(** The body of one iteration of the angle loop: [None] is the early
    [return False] on a zero-length edge, [Some a] the angle appended. *)
Definition corner_angle (p1 p2 p3 : point) : option R :=
  let v1 := vsub p1 p2 in
  let v2 := vsub p3 p2 in
  let norm1 := norm v1 in
  let norm2 := norm v2 in
  if Reqb norm1 0 || Reqb norm2 0 then None
  else
    let cos_angle := dot v1 v2 / (norm1 * norm2) in
    let cos_angle := clip cos_angle (-1) 1 in
    let angle := acos cos_angle in
    Some (degrees angle).

(** [for i in range(4)]: the angles collected so far are [angles]. *)
Fixpoint angles_loop (corners : list point) (idxs : list nat) (angles : list R)
  : option (list R) :=
  match idxs with
  | [] => Some angles
  | i :: rest =>
      let p1 := nth i corners origin in
      let p2 := nth ((i + 1) mod 4) corners origin in
      let p3 := nth ((i + 2) mod 4) corners origin in
      match corner_angle p1 p2 p3 with
      | None => None
      | Some a => angles_loop corners rest (angles ++ [a])
      end
  end.

Definition invalid_angle (a : R) : bool := Rleb a 20 || Rleb 160 a.

(** The [try] body never raises on real numbers, so the [except] branch
    (which returns [False] too) has no counterpart here. *)
Definition _is_valid_quadrilateral (corners : list point) : bool :=
  if negb (length corners =? 4)%nat then false
  else
    match angles_loop corners (seq 0 4) [] with
    | None => false
    | Some angles =>
        match filter invalid_angle angles with
        | [] => true
        | _ :: _ => false
        end
    end.

(** ** Corner Validator: [_validate_corners] *)

Definition margin : R := 50.

Definition out_of_bounds (height width : Z) (corner : point) : bool :=
  let '(x, y) := corner in
  Rltb x (- margin) || Rltb (IZR width + margin) x
  || Rltb y (- margin) || Rltb (IZR height + margin) y.

Definition _validate_corners_body (corners : list point) (img_shape : Z * Z)
  : result bool :=
  (if negb (length corners =? 4)%nat then Ok false
   else
     let '(height, width) := img_shape in
     if existsb (out_of_bounds height width) corners then Ok false
     else
       let area := Rabs (contourArea corners) in
       let img_area := (height * width)%Z in
       area_ratio <- py_div area (IZR img_area) ;;
       if Rltb area_ratio 0.05 then Ok false
       else if Rltb 0.98 area_ratio then Ok false
       else Ok true)%result.

Definition _validate_corners (corners : list point) (img_shape : Z * Z) : bool :=
  match try_except (_validate_corners_body corners img_shape)
                   (fun _ => Ok false) with
  | Ok b => b
  | Raise _ => false
  end.

(** ** Perspective Rectifier: corner ordering and output size *)

(** [np.argmin]: the index of the first occurrence of the minimum. *)
Fixpoint argmin_from (best : R) (best_i i : nat) (l : list R) : nat :=
  match l with
  | [] => best_i
  | x :: rest =>
      if Rltb x best then argmin_from x i (S i) rest
      else argmin_from best best_i (S i) rest
  end.

Definition argmin (l : list R) : nat :=
  match l with
  | [] => 0%nat
  | x :: rest => argmin_from x 0 1 rest
  end.

(** [np.argmax]: the index of the first occurrence of the maximum. *)
Fixpoint argmax_from (best : R) (best_i i : nat) (l : list R) : nat :=
  match l with
  | [] => best_i
  | x :: rest =>
      if Rltb best x then argmax_from x i (S i) rest
      else argmax_from best best_i (S i) rest
  end.

Definition argmax (l : list R) : nat :=
  match l with
  | [] => 0%nat
  | x :: rest => argmax_from x 0 1 rest
  end.

(** [pts.sum(axis=1)] and [np.diff(pts, axis=1)] of one row. *)
Definition coord_sum (p : point) : R := fst p + snd p.
Definition coord_diff (p : point) : R := snd p - fst p.

(** [reshape(4, 2)] raises unless there are exactly four points.  The
    result is [rect]: top-left, top-right, bottom-right, bottom-left. *)
Definition _order_corners (pts : list point) : result (list point) :=
  if negb (length pts =? 4)%nat then Raise ValueError
  else
    let s := map coord_sum pts in
    let diff := map coord_diff pts in
    Ok [ nth (argmin s) pts origin;
         nth (argmin diff) pts origin;
         nth (argmax s) pts origin;
         nth (argmax diff) pts origin ].

(** Lines 408-419 of [_transform_perspective]: [(maxWidth, maxHeight)]. *)
Definition output_size (tl tr br bl : point) : Z * Z :=
  let widthA := sqrt ((fst br - fst bl) ^ 2 + (snd br - snd bl) ^ 2) in
  let widthB := sqrt ((fst tr - fst tl) ^ 2 + (snd tr - snd tl) ^ 2) in
  let maxWidth := Z.max (py_int widthA) (py_int widthB) in
  let heightA := sqrt ((fst tr - fst br) ^ 2 + (snd tr - snd br) ^ 2) in
  let heightB := sqrt ((fst tl - fst bl) ^ 2 + (snd tl - snd bl) ^ 2) in
  let maxHeight := Z.max (py_int heightA) (py_int heightB) in
  let maxWidth := Z.max maxWidth 100 in
  let maxHeight := Z.max maxHeight 100 in
  (maxWidth, maxHeight).

(** The size the Rectifier computes for a corner array: the ordering
    followed by lines 408-419. *)
Definition rectifier_size (corners : list point) : result (Z * Z) :=
  bind (_order_corners corners) (fun rect =>
    match rect with
    | [tl; tr; br; bl] => Ok (output_size tl tr br bl)
    | _ => Raise ValueError
    end).

(** [dst]: the destination rectangle. *)
Definition dst_rect (size : Z * Z) : list point :=
  let '(maxWidth, maxHeight) := size in
  [ (0, 0);
    (IZR (maxWidth - 1), 0);
    (IZR (maxWidth - 1), IZR (maxHeight - 1));
    (0, IZR (maxHeight - 1)) ].

(** ** The imaging library: OpenCV and Pillow *)

Inductive color_conversion : Type :=
| COLOR_BGR2GRAY | COLOR_BGR2LAB | COLOR_LAB2BGR | COLOR_BGR2RGB | COLOR_RGB2BGR.

Inductive adaptive_method : Type :=
| ADAPTIVE_THRESH_GAUSSIAN_C | ADAPTIVE_THRESH_MEAN_C.

Inductive threshold_type : Type :=
| THRESH_BINARY | THRESH_BINARY_OTSU.

Inductive morph_op : Type :=
| MORPH_CLOSE | MORPH_GRADIENT.

(** [np.ones((k, k), np.uint8)] and [cv2.getStructuringElement(cv2.MORPH_RECT,
    (k, k))]: a full rectangular kernel is its size. *)
Definition structuring_element : Type := (Z * Z)%type.

(** One type [image] stands for every pixel buffer object of the program, a
    NumPy array in any colour space or a Pillow image; every operation of
    the two libraries may raise. *)
Class ImagingLib : Type := {
  image : Type;
  matrix : Type;
  shape : image -> Z * Z;
  imdecode : list Init.Byte.byte -> result (option image);
  pil_open_rgb : list Init.Byte.byte -> result image;
  resize : image -> Z * Z -> result image;
  cvtColor : image -> color_conversion -> result image;
  bilateralFilter : image -> Z -> R -> R -> result image;
  GaussianBlur : image -> Z * Z -> R -> result image;
  medianBlur : image -> Z -> result image;
  Canny : image -> R -> R -> result image;
  dilate : image -> structuring_element -> Z -> result image;
  erode : image -> structuring_element -> Z -> result image;
  clahe_apply : R -> Z * Z -> image -> result image;
  adaptiveThreshold :
    image -> R -> adaptive_method -> threshold_type -> Z -> R -> result image;
  morphologyEx : image -> morph_op -> structuring_element -> Z -> result image;
  threshold : image -> R -> R -> threshold_type -> result image;
  channel0 : image -> result image;
  findContours : image -> result (list contour);
  approxPolyDP : contour -> R -> result contour;
  getPerspectiveTransform : list point -> list point -> result matrix;
  warpPerspective : image -> matrix -> Z * Z -> result image;
  split : image -> result (image * image * image);
  merge : image -> image -> image -> result image;
  fastNlMeansDenoisingColored : image -> R -> R -> Z -> Z -> result image;
  fromarray : image -> result image;
  np_array : image -> result image;
  contrast_enhance : image -> R -> result image;
  sharpness_enhance : image -> R -> result image;
  brightness_enhance : image -> R -> result image
}.

(** [for x in xs: ...; if corners is not None: return corners] followed by
    [return None]. *)
Fixpoint for_first {A B : Type} (xs : list A) (body : A -> result (option B))
  : result (option B) :=
  match xs with
  | [] => Ok None
  | x :: rest =>
      bind (body x) (fun r =>
        match r with
        | Some b => Ok (Some b)
        | None => for_first rest body
        end)
  end.

(** [sorted(contours, key=cv2.contourArea, reverse=True)]: a stable sort,
    largest area first. *)
Fixpoint insert_by_area (c : contour) (sorted : list contour) : list contour :=
  match sorted with
  | [] => [c]
  | d :: rest =>
      if Rltb (contourArea d) (contourArea c) then c :: d :: rest
      else d :: insert_by_area c rest
  end.

Definition sorted_by_area (contours : list contour) : list contour :=
  fold_left (fun acc c => insert_by_area c acc) contours [].

Definition epsilon_factors : list R := [0.02; 0.03; 0.04; 0.05; 0.06].

Section Pipeline.

Context {lib : ImagingLib}.

Local Open Scope result_scope.

(** ** Contour Selector: [_find_best_contour] *)

(** [for epsilon_factor in [0.02, ...]]: [Some corners] is the [return
    corners] that leaves both loops. *)
Definition epsilon_sweep (c : contour) (peri ratio : R)
  : result (option (list point)) :=
  for_first epsilon_factors (fun epsilon_factor =>
    approx <- approxPolyDP c (epsilon_factor * peri) ;;
    if (length approx =? 4)%nat then
      let corners := approx in
      let corners := scale ratio corners in
      if _is_valid_quadrilateral corners then Ok (Some corners)
      else Ok None
    else Ok None).

(** The call [cv2.contourArea(contour)] inside its own [try]; the measure
    itself never raises. *)
Definition cv2_contourArea (c : contour) : result R := Ok (contourArea c).

(** The body of [for contour in contours]; [Ok None] is [continue], also
    from the bare [except]. *)
Definition try_contour (img_area : Z) (ratio : R) (c : contour)
  : result (option (list point)) :=
  if (length c <? 4)%nat then Ok None
  else
    area <- try_except (area <- cv2_contourArea c ;; Ok (Some area))
                       (fun _ => Ok None) ;;
    match area with
    | None => Ok None
    | Some area =>
        if Rltb area (IZR img_area * 0.05) then Ok None
        else if Rltb (IZR img_area * 0.98) area then Ok None
        else
          let peri := arcLength c in
          if Reqb peri 0 then Ok None
          else epsilon_sweep c peri ratio
    end.

(** The [try] block of [_find_best_contour]. *)
Definition _find_best_contour_body (edged : image) (img_shape : Z * Z)
  (ratio : R) : result (option (list point)) :=
  contours <- findContours edged ;;
  match contours with
  | [] => Ok None
  | _ :: _ =>
      let contours := firstn 15 (sorted_by_area contours) in
      let img_area := (fst img_shape * snd img_shape)%Z in
      for_first contours (try_contour img_area ratio)
  end.

Definition _find_best_contour (edged : image) (img_shape : Z * Z) (ratio : R)
  : result (option (list point)) :=
  try_except (_find_best_contour_body edged img_shape ratio)
    (fun _ => Ok None).

(** ** The four strategies *)

Definition edge_params : list (R * R) :=
  [(30, 100); (50, 150); (75, 200); (100, 250)].

Definition _strategy_edge_detection (img : image)
  : result (option (list point)) :=
  let '(height, width) := shape img in
  let ratio := IZR height / 800 in
  w <- py_div (IZR width) ratio ;;
  resized <- resize img (py_int w, 800%Z) ;;
  gray <- cvtColor resized COLOR_BGR2GRAY ;;
  bilateral <- bilateralFilter gray 9 75 75 ;;
  gaussian <- GaussianBlur gray (5, 5)%Z 0 ;;
  median <- medianBlur gray 5 ;;
  let preprocessed_images := [bilateral; gaussian; median] in
  for_first preprocessed_images (fun preprocessed =>
    for_first edge_params (fun '(low, high) =>
      edged <- Canny preprocessed low high ;;
      let kernel : structuring_element := (3, 3)%Z in
      edged <- dilate edged kernel 2 ;;
      edged <- erode edged kernel 1 ;;
      _find_best_contour edged (shape resized) ratio)).

Definition _strategy_adaptive_threshold (img : image)
  : result (option (list point)) :=
  let '(height, width) := shape img in
  let ratio := IZR height / 800 in
  w <- py_div (IZR width) ratio ;;
  resized <- resize img (py_int w, 800%Z) ;;
  gray <- cvtColor resized COLOR_BGR2GRAY ;;
  enhanced <- clahe_apply 2.0 (8, 8)%Z gray ;;
  gaussian <- adaptiveThreshold enhanced 255 ADAPTIVE_THRESH_GAUSSIAN_C
                THRESH_BINARY 11 2 ;;
  mean <- adaptiveThreshold enhanced 255 ADAPTIVE_THRESH_MEAN_C
            THRESH_BINARY 11 2 ;;
  let thresh_methods := [gaussian; mean] in
  for_first thresh_methods (fun thresh =>
    let kernel : structuring_element := (5, 5)%Z in
    morph <- morphologyEx thresh MORPH_CLOSE kernel 2 ;;
    edged <- Canny morph 50 150 ;;
    let kernel : structuring_element := (3, 3)%Z in
    edged <- dilate edged kernel 2 ;;
    _find_best_contour edged (shape resized) ratio).

Definition _strategy_color_segmentation (img : image)
  : result (option (list point)) :=
  let '(height, width) := shape img in
  let ratio := IZR height / 800 in
  w <- py_div (IZR width) ratio ;;
  resized <- resize img (py_int w, 800%Z) ;;
  lab <- cvtColor resized COLOR_BGR2LAB ;;
  l_channel <- channel0 lab ;;
  thresh <- threshold l_channel 0 255 THRESH_BINARY_OTSU ;;
  let kernel : structuring_element := (7, 7)%Z in
  morph <- morphologyEx thresh MORPH_CLOSE kernel 3 ;;
  edged <- Canny morph 50 150 ;;
  let kernel : structuring_element := (3, 3)%Z in
  edged <- dilate edged kernel 2 ;;
  _find_best_contour edged (shape resized) ratio.

Definition _strategy_morphological (img : image)
  : result (option (list point)) :=
  let '(height, width) := shape img in
  let ratio := IZR height / 800 in
  w <- py_div (IZR width) ratio ;;
  resized <- resize img (py_int w, 800%Z) ;;
  gray <- cvtColor resized COLOR_BGR2GRAY ;;
  enhanced <- clahe_apply 3.0 (8, 8)%Z gray ;;
  filtered <- bilateralFilter enhanced 9 75 75 ;;
  let kernel : structuring_element := (5, 5)%Z in
  gradient <- morphologyEx filtered MORPH_GRADIENT kernel 1 ;;
  thresh <- threshold gradient 0 255 THRESH_BINARY_OTSU ;;
  let kernel : structuring_element := (7, 7)%Z in
  morph <- morphologyEx thresh MORPH_CLOSE kernel 3 ;;
  _find_best_contour morph (shape resized) ratio.

(** ** Scanner: [_find_document_corners_multi_strategy] *)

Definition _find_document_corners_multi_strategy (img : image)
  : result (option (list point)) :=
  corners <- _strategy_edge_detection img ;;
  match corners with
  | Some corners => Ok (Some corners)
  | None =>
  corners <- _strategy_adaptive_threshold img ;;
  match corners with
  | Some corners => Ok (Some corners)
  | None =>
  corners <- _strategy_color_segmentation img ;;
  match corners with
  | Some corners => Ok (Some corners)
  | None =>
  corners <- _strategy_morphological img ;;
  match corners with
  | Some corners => Ok (Some corners)
  | None => Ok None
  end end end end.

(** ** Perspective Rectifier: [_transform_perspective] *)

Definition _transform_perspective (img : image) (corners : list point)
  : result image :=
  try_except
    (rect <- _order_corners corners ;;
     match rect with
     | [tl; tr; br; bl] =>
         let size := output_size tl tr br bl in
         let dst := dst_rect size in
         M <- getPerspectiveTransform rect dst ;;
         warped <- warpPerspective img M size ;;
         Ok warped
     | _ => Raise ValueError
     end)
    (fun _ => Ok img).

(** ** Quality Enhancer: [_enhance_quality], [_enhance_quality_aggressive] *)

Definition _enhance_quality (img : image) : result image :=
  try_except
    (lab <- cvtColor img COLOR_BGR2LAB ;;
     '(l, a, b) <- split lab ;;
     l <- clahe_apply 2.5 (8, 8)%Z l ;;
     lab <- merge l a b ;;
     enhanced <- cvtColor lab COLOR_LAB2BGR ;;
     rgb <- cvtColor enhanced COLOR_BGR2RGB ;;
     pil_img <- fromarray rgb ;;
     pil_img <- contrast_enhance pil_img 1.5 ;;
     pil_img <- sharpness_enhance pil_img 2.0 ;;
     pil_img <- brightness_enhance pil_img 1.1 ;;
     arr <- np_array pil_img ;;
     cvtColor arr COLOR_RGB2BGR)
    (fun _ => Ok img).

Definition _enhance_quality_aggressive (img : image) : result image :=
  try_except
    (lab <- cvtColor img COLOR_BGR2LAB ;;
     '(l, a, b) <- split lab ;;
     l <- clahe_apply 3.5 (8, 8)%Z l ;;
     lab <- merge l a b ;;
     enhanced <- cvtColor lab COLOR_LAB2BGR ;;
     enhanced <- fastNlMeansDenoisingColored enhanced 10 10 7 21 ;;
     rgb <- cvtColor enhanced COLOR_BGR2RGB ;;
     pil_img <- fromarray rgb ;;
     pil_img <- contrast_enhance pil_img 1.8 ;;
     pil_img <- sharpness_enhance pil_img 2.2 ;;
     pil_img <- brightness_enhance pil_img 1.15 ;;
     arr <- np_array pil_img ;;
     cvtColor arr COLOR_RGB2BGR)
    (fun _ => Ok img).

(** *** The tone-adjustment stages, one at a time

    The same calls as above, cut at the three tone adjustments, so that a
    property can name the buffer a stage received. *)

Inductive variant : Type := Standard | Aggressive.

Inductive tone_stage : Type := Contrast | Sharpness | Brightness.

Definition enhance (v : variant) : image -> result image :=
  match v with
  | Standard => _enhance_quality
  | Aggressive => _enhance_quality_aggressive
  end.

Definition gain (v : variant) (s : tone_stage) : R :=
  match v, s with
  | Standard, Contrast => 1.5
  | Standard, Sharpness => 2.0
  | Standard, Brightness => 1.1
  | Aggressive, Contrast => 1.8
  | Aggressive, Sharpness => 2.2
  | Aggressive, Brightness => 1.15
  end.

Definition run_tone_stage (v : variant) (s : tone_stage) (pil_img : image)
  : result image :=
  match s with
  | Contrast => contrast_enhance pil_img (gain v s)
  | Sharpness => sharpness_enhance pil_img (gain v s)
  | Brightness => brightness_enhance pil_img (gain v s)
  end.

(** The Pillow image built before the first tone adjustment. *)
Definition before_tone (v : variant) (img : image) : result image :=
  match v with
  | Standard =>
      lab <- cvtColor img COLOR_BGR2LAB ;;
      '(l, a, b) <- split lab ;;
      l <- clahe_apply 2.5 (8, 8)%Z l ;;
      lab <- merge l a b ;;
      enhanced <- cvtColor lab COLOR_LAB2BGR ;;
      rgb <- cvtColor enhanced COLOR_BGR2RGB ;;
      fromarray rgb
  | Aggressive =>
      lab <- cvtColor img COLOR_BGR2LAB ;;
      '(l, a, b) <- split lab ;;
      l <- clahe_apply 3.5 (8, 8)%Z l ;;
      lab <- merge l a b ;;
      enhanced <- cvtColor lab COLOR_LAB2BGR ;;
      enhanced <- fastNlMeansDenoisingColored enhanced 10 10 7 21 ;;
      rgb <- cvtColor enhanced COLOR_BGR2RGB ;;
      fromarray rgb
  end.

(** The buffer a tone stage receives. *)
Definition stage_input (v : variant) (s : tone_stage) (img : image)
  : result image :=
  match s with
  | Contrast => before_tone v img
  | Sharpness =>
      pil_img <- before_tone v img ;;
      run_tone_stage v Contrast pil_img
  | Brightness =>
      pil_img <- before_tone v img ;;
      pil_img <- run_tone_stage v Contrast pil_img ;;
      run_tone_stage v Sharpness pil_img
  end.

(** Stage [s] is reached with the buffer [pre] and raises [e] on it. *)
Definition stage_faults (v : variant) (s : tone_stage) (img pre : image)
  (e : exn) : Prop :=
  stage_input v s img = Ok pre /\ run_tone_stage v s pre = Raise e.

(** ** Top level: [process] *)

(** Lines 56-59, reached when no corners are found or they are rejected. *)
Definition fallback (original : image) : result (image * bool) :=
  enhanced <- _enhance_quality_aggressive original ;;
  rgb <- cvtColor enhanced COLOR_BGR2RGB ;;
  pil_img <- fromarray rgb ;;
  Ok (pil_img, false).

(** The [try] block of [process]. *)
Definition process_body (image_bytes : list Init.Byte.byte)
  : result (image * bool) :=
  decoded <- imdecode image_bytes ;;
  match decoded with
  | None => Raise ValueError
  | Some img =>
      let original := img in
      corners <- _find_document_corners_multi_strategy img ;;
      match corners with
      | Some corners =>
          let is_valid := _validate_corners corners (shape img) in
          if is_valid then
            transformed <- _transform_perspective original corners ;;
            enhanced <- _enhance_quality transformed ;;
            rgb <- cvtColor enhanced COLOR_BGR2RGB ;;
            result <- fromarray rgb ;;
            Ok (result, true)
          else fallback original
      | None => fallback original
      end
  end.

Definition process (image_bytes : list Init.Byte.byte) : result (image * bool) :=
  try_except (process_body image_bytes)
    (fun _ =>
       pil_img <- pil_open_rgb image_bytes ;;
       Ok (pil_img, false)).

(** ** Vocabulary of the properties of [process] and the enhancers *)

(** The enhancers, regrouped around the three tone adjustments. *)
Definition enhance_staged (v : variant) (img : image) : result image :=
  try_except
    (pil_img <- stage_input v Brightness img ;;
     pil_img <- run_tone_stage v Brightness pil_img ;;
     arr <- np_array pil_img ;;
     cvtColor arr COLOR_RGB2BGR)
    (fun _ => Ok img).

(** The buffer is decoded by both decoders of the program. *)
Definition well_formed (image_bytes : list Init.Byte.byte) : Prop :=
  exists img pil_img,
    imdecode image_bytes = Ok (Some img)
    /\ pil_open_rgb image_bytes = Ok pil_img.


(** The Scanner finds [corners] and the Corner Validator accepts them. *)
Definition located (img : image) (corners : list point) : Prop :=
  _find_document_corners_multi_strategy img = Ok (Some corners)
  /\ _validate_corners corners (shape img) = true.


(** The answer of the [except] branch of [process]. *)
Definition plain_decode (image_bytes : list Init.Byte.byte)
  : result (image * bool) :=
  pil_img <- pil_open_rgb image_bytes ;; Ok (pil_img, false).

End Pipeline.

(** * Vocabulary of the geometric properties *)

(** The point [_order_corners] puts in a slot: the one at the [argmin], or
    at the [argmax], of a key. *)
Definition pick_min (key : point -> R) (pts : list point) : point :=
  nth (argmin (map key pts)) pts origin.

Definition pick_max (key : point -> R) (pts : list point) : point :=
  nth (argmax (map key pts)) pts origin.


Definition angle_ok (a : R) : Prop := 20 < a < 160.

(** The quadrilateral whose corners are the corners of the frame. *)
Definition frame_corners (height width : Z) : list point :=
  [ (0, 0); (IZR width, 0); (IZR width, IZR height); (0, IZR height) ].

Definition beyond_margin (height width : Z) (p : point) : Prop :=
  fst p < - 50 \/ IZR width + 50 < fst p
  \/ snd p < - 50 \/ IZR height + 50 < snd p.

Definition area_in_range (img_shape : Z * Z) (c : contour) : Prop :=
  let img_area := IZR (fst img_shape * snd img_shape) in
  img_area * 0.05 <= contourArea c <= img_area * 0.98.

(** The angle at every vertex of a four-point array, as the Quadrilateral
    Validator computes it, lies strictly between 20 and 160 degrees. *)
Definition angles_in_range (q : list point) : Prop :=
  forall i, (i < 4)%nat ->
    exists a,
      corner_angle (nth i q origin) (nth ((i + 1) mod 4) q origin)
                   (nth ((i + 2) mod 4) q origin) = Some a
      /\ 20 < a < 160.

(** * Fixtures *)

(** ** Corner arrays *)


(** A rhombus standing on a corner, all keys distinct. *)
Definition rhombus : list point := [(4, 0); (8, 5); (4, 10); (0, 5)].

(** An upright sheet seen slightly from the side. *)
Definition sheet : list point := [(10, 20); (310, 30); (320, 440); (5, 430)].

(** ** A synthetic imaging library

    A pixel buffer is named by the number of operations that produced it;
    every pixel operation succeeds and yields a new buffer.  What varies is
    the frame shape, what contour extraction and polygon approximation
    answer, and whether the sharpness adjustment faults. *)

Record scenario : Type := {
  frame_shape : Z * Z;
  extracted : result (list contour);
  approximation : contour -> R -> result contour;
  sharpness_fault : option exn
}.

Definition fresh (img : nat) : result nat := Ok (S img).

Definition synthetic (sc : scenario) : ImagingLib := {|
  image := nat;
  matrix := unit;
  shape := fun _ => frame_shape sc;
  imdecode := fun image_bytes =>
    match image_bytes with
    | [] => Ok None
    | _ :: _ => Ok (Some 0%nat)
    end;
  pil_open_rgb := fun image_bytes =>
    match image_bytes with
    | [] => Raise (LibraryError 1)
    | _ :: _ => Ok 0%nat
    end;
  resize := fun img _ => fresh img;
  cvtColor := fun img _ => fresh img;
  bilateralFilter := fun img _ _ _ => fresh img;
  GaussianBlur := fun img _ _ => fresh img;
  medianBlur := fun img _ => fresh img;
  Canny := fun img _ _ => fresh img;
  dilate := fun img _ _ => fresh img;
  erode := fun img _ _ => fresh img;
  clahe_apply := fun _ _ img => fresh img;
  adaptiveThreshold := fun img _ _ _ _ _ => fresh img;
  morphologyEx := fun img _ _ _ => fresh img;
  threshold := fun img _ _ _ => fresh img;
  channel0 := fun img => fresh img;
  findContours := fun _ => extracted sc;
  approxPolyDP := approximation sc;
  getPerspectiveTransform := fun _ _ => Ok tt;
  warpPerspective := fun img _ _ => fresh img;
  split := fun img => Ok (S img, S img, S img);
  merge := fun l _ _ => fresh l;
  fastNlMeansDenoisingColored := fun img _ _ _ _ => fresh img;
  fromarray := fun img => fresh img;
  np_array := fun img => fresh img;
  contrast_enhance := fun img _ => fresh img;
  sharpness_enhance := fun img _ =>
    match sharpness_fault sc with
    | Some e => Raise e
    | None => fresh img
    end;
  brightness_enhance := fun img _ => fresh img
|}.

(** A card lying flat in an 800 x 1000 frame: its outline is already a
    quadrilateral, which polygon approximation leaves as it is. *)
Definition card : contour := [(100, 100); (100, 700); (900, 700); (900, 100)].

Definition clean_sheet : scenario := {|
  frame_shape := (800, 1000)%Z;
  extracted := Ok [card];
  approximation := fun c _ => Ok c;
  sharpness_fault := None
|}.


Definition undented : contour := [(0, 0); (0, 799); (999, 799); (999, 0)].


Definition failing_extraction : scenario := {|
  frame_shape := (800, 1000)%Z;
  extracted := Raise (LibraryError 7);
  approximation := fun c _ => Ok c;
  sharpness_fault := None
|}.

Definition failing_sharpness : scenario := {|
  frame_shape := (800, 1000)%Z;
  extracted := Ok [];
  approximation := fun c _ => Ok c;
  sharpness_fault := Some (LibraryError 3)
|}.

(** The first two bytes of a PNG file. *)
Definition png_magic : list Init.Byte.byte := [Init.Byte.x89; Init.Byte.x50].

(** * Vocabulary of the further properties *)

(** The angle at vertex [b], between the edges to [a] and to [c], is
    defined and lies strictly between 20 and 160 degrees. *)
Definition good_corner (a b c : point) : Prop :=
  exists angle, corner_angle a b c = Some angle /\ angle_ok angle.



(** The order of the sorted contour list: largest area first. *)
Definition larger_first (c d : contour) : Prop :=
  contourArea d <= contourArea c.



(** * The document assembler of [python-worker/pdf_builder.py] *)

(** What is sent to the reportlab canvas, in the order it is sent. *)
Inductive canvas_op : Type :=
| SetTitle (text : string)
| SetAuthor (text : string)
| SetSubject (text : string)
| DrawImage (path : string) (x y width height : R)
| DrawString (x y : R) (text : string)
| ShowPage
| Save (output_path : string).

(** The library side of [create_pdf]: the page size [A4], the value of
    [datetime.now()] as text, the size of the image file at a path
    ([Image.open(path).size], which raises on a missing or unreadable
    file), the faults of [c.drawImage] on a file, and the faults of
    [c.save()].  Setting the document properties, [drawString] and
    [showPage] only extend the description of the document. *)
Class PdfLib : Type := {
  A4 : R * R;
  now_text : string;
  image_size : string -> result (Z * Z);
  drawImage_fault : string -> result unit;
  save_fault : string -> result unit
}.

(** Python's [str] of a non-negative [int]. *)
Definition py_str (n : nat) : string := NilZero.string_of_uint (Nat.to_uint n).

(** Python's [min(a, b)]. *)
Definition py_min (a b : R) : R := if Rlt_dec b a then b else a.

Section PdfBuilder.

Context {pdf : PdfLib}.

Local Open Scope result_scope.

(** The [try] block of one iteration of [create_pdf]: the operations it
    sends to the canvas.  Everything that can raise comes before the first
    of them. *)
Definition draw_page (idx : nat) (img_path : string) : result (list canvas_op) :=
  let '(page_width, page_height) := A4 in
  '(iw, ih) <- image_size img_path ;;
  sw <- py_div page_width (IZR iw) ;;
  sh <- py_div page_height (IZR ih) ;;
  let scale := py_min sw sh in
  let w := IZR iw * scale in
  let h := IZR ih * scale in
  let x := (page_width - w) / 2 in
  let y := (page_height - h) / 2 in
  _ <- drawImage_fault img_path ;;
  Ok [ DrawImage img_path x y w h;
       DrawString 30 30 ("Page " ++ py_str idx)%string;
       ShowPage ].

(** [for idx, img_path in enumerate(images, start=idx)], with the canvas
    so far in [c]; a fault is printed and the loop continues. *)
Fixpoint draw_pages (c : list canvas_op) (idx : nat) (images : list string)
  : list canvas_op :=
  match images with
  | [] => c
  | img_path :: rest =>
      match draw_page idx img_path with
      | Ok ops => draw_pages (c ++ ops) (S idx) rest
      | Raise _ => draw_pages c (S idx) rest
      end
  end.

(** [PDFBuilder.create_pdf]: the operations sent to the canvas. *)
Definition create_pdf (images : list string) (output_path : string)
  : result (list canvas_op) :=
  let c := [ SetTitle "Generated Document";
             SetAuthor "WhatsApp PDF Bot";
             SetSubject ("Document generated on " ++ now_text)%string ] in
  let c := draw_pages c 1 images in
  _ <- save_fault output_path ;;
  Ok (c ++ [Save output_path]).

(** The images of a list that [create_pdf] can place, each with its
    position in the list, counted from [idx]. *)
Fixpoint placed (idx : nat) (images : list string) : list (nat * string) :=
  match images with
  | [] => []
  | img_path :: rest =>
      match draw_page idx img_path with
      | Ok _ => (idx, img_path) :: placed (S idx) rest
      | Raise _ => placed (S idx) rest
      end
  end.

End PdfBuilder.

(** The texts drawn on a canvas, and the number of its pages. *)
Definition drawn_texts (c : list canvas_op) : list string :=
  flat_map (fun op => match op with DrawString _ _ text => [text] | _ => [] end) c.

Definition drawn_images (c : list canvas_op) : list string :=
  flat_map (fun op => match op with DrawImage path _ _ _ _ => [path] | _ => [] end) c.

Definition page_count (c : list canvas_op) : nat :=
  length (filter (fun op => match op with ShowPage => true | _ => false end) c).

(** A reportlab-like library over three files: a landscape photograph, a
    file that is not an image, and a portrait scan. *)
Definition three_files : PdfLib := {|
  A4 := (595.27, 841.89);
  now_text := "2025-01-01 00:00:00";
  image_size := fun path =>
    if String.eqb path "photo.png" then Ok (4000, 3000)%Z
    else if String.eqb path "scan.png" then Ok (1000, 2000)%Z
    else Raise (LibraryError 2);
  drawImage_fault := fun _ => Ok tt;
  save_fault := fun _ => Ok tt
|}.

(** * The request handler of [python-worker/main.py] *)

(** The files of [image_dir]: name and content, every name once. *)
Abbreviation directory := (list (string * list Init.Byte.byte)) (only parsing).

Fixpoint lookup (d : directory) (name : string) : option (list Init.Byte.byte) :=
  match d with
  | [] => None
  | (n, content) :: rest => if String.eqb n name then Some content else lookup rest name
  end.

(** [path.exists()] *)
Definition file_exists (d : directory) (name : string) : bool :=
  match lookup d name with Some _ => true | None => false end.

(** [path.unlink()] *)
Definition unlink (d : directory) (name : string) : directory :=
  filter (fun entry => negb (String.eqb (fst entry) name)) d.

(** Writing a file creates or replaces it. *)
Definition write_file (d : directory) (name : string)
  (content : list Init.Byte.byte) : directory :=
  (name, content) :: unlink d name.

(** [open(path, "rb").read()]: a missing file raises (errno 2). *)
Definition read_file (d : directory) (name : string)
  : result (list Init.Byte.byte) :=
  match lookup d name with
  | Some content => Ok content
  | None => Raise (LibraryError 2)
  end.

Definition has_suffix (suffix name : string) : bool :=
  let n := String.length name in
  let k := String.length suffix in
  (k <=? n)%nat && String.eqb (String.substring (n - k) k name) suffix.

(** [image_dir.glob("img_*" + suffix)], names only. *)
Definition glob_img (d : directory) (suffix : string) : list string :=
  filter (fun name => String.prefix "img_" name && has_suffix suffix name)
         (map fst d).

(** [sorted] on paths of one directory: by name. *)
Fixpoint insert_name (name : string) (sorted : list string) : list string :=
  match sorted with
  | [] => [name]
  | n :: rest =>
      if String.leb name n then name :: n :: rest
      else n :: insert_name name rest
  end.

Definition sorted_names (names : list string) : list string :=
  fold_right insert_name [] names.

Definition ready_file : string := "READY.txt".

Definition processed_name (name : string) : string :=
  ("processed_" ++ name)%string.

(** The three ways [generate_pdf] ends: with the demo answer, with the
    answer for a generated document, or by raising an [HTTPException]. *)
Inductive response : Type :=
| UseDemo
| Generated (pdfPath : string) (pageCount : nat) (fileSize : string)
| HTTPException (status_code : Z).

(** What the handler uses besides the imaging library: the bytes
    [processed.save(out_path, format="PNG")] writes, what Pillow and
    reportlab make of a file with given bytes, the bytes of the saved
    document, the text of a path of the directory, the page size and the
    clock. *)
Class WorkerLib {lib : ImagingLib} : Type := {
  save_png : image -> result (list Init.Byte.byte);
  file_image_size : list Init.Byte.byte -> result (Z * Z);
  file_draw_fault : list Init.Byte.byte -> result unit;
  document_bytes : list canvas_op -> list Init.Byte.byte;
  path_text : string -> string;
  page_size : R * R;
  clock_text : string
}.

Section Handler.

Context {lib : ImagingLib} {worker : WorkerLib}.

Local Open Scope result_scope.

(** The document assembler working on the files of a directory. *)
Definition pdf_on (d : directory) : PdfLib := {|
  A4 := page_size;
  now_text := clock_text;
  image_size := fun name => contents <- read_file d name ;; file_image_size contents;
  drawImage_fault := fun name => contents <- read_file d name ;; file_draw_fault contents;
  save_fault := fun _ => Ok tt
|}.

(** [for img_path in image_files], with the directory, [processed_paths]
    and [transformed_flags] so far. *)
Fixpoint process_files (d : directory) (image_files : list string)
  (processed_paths : list string) (transformed_flags : list bool)
  : result (directory * list string * list bool) :=
  match image_files with
  | [] => Ok (d, processed_paths, transformed_flags)
  | img_path :: rest =>
      contents <- read_file d img_path ;;
      '(processed, is_transformed) <- process contents ;;
      let transformed_flags := transformed_flags ++ [is_transformed] in
      let out_path := processed_name img_path in
      png <- save_png processed ;;
      let d := write_file d out_path png in
      let processed_paths := processed_paths ++ [out_path] in
      process_files d rest processed_paths transformed_flags
  end.

(** [if f.exists(): f.unlink()] over a list of files. *)
Definition cleanup (d : directory) (files : list string) : directory :=
  fold_left (fun d f => if file_exists d f then unlink d f else d) files d.

(** The [try] block of [generate_pdf]: the answer and the directory
    afterwards. *)
Definition generate_pdf_body (d : directory) (image_files : list string)
  : result (response * directory) :=
  '(d, processed_paths, transformed_flags) <-
     process_files d image_files [] [] ;;
  if existsb negb transformed_flags then Ok (UseDemo, d)
  else
    let output_pdf := "output.pdf"%string in
    c <- @create_pdf (pdf_on d) processed_paths (path_text output_pdf) ;;
    let d := write_file d output_pdf (document_bytes c) in
    let d := cleanup d (image_files ++ processed_paths ++ [ready_file]) in
    let page_count := length image_files in
    contents <- read_file d output_pdf ;;
    let file_size := length contents in
    Ok (Generated (path_text output_pdf) page_count
          (py_str file_size ++ " bytes")%string,
        d).

(** [generate_pdf] once [READY.txt] is there: the answer, and the
    directory afterwards when the handler returns.  Without [READY.txt] the
    handler polls; that loop depends on the clock and on the other
    processes that write to the directory, and is not described ([None]). *)
Definition generate_pdf (d : directory) : option (response * option directory) :=
  if negb (file_exists d ready_file) then None
  else
    let image_files := sorted_names (glob_img d ".jpg" ++ glob_img d ".png") in
    match image_files with
    | [] => Some (HTTPException 400, None)
    | _ :: _ =>
        match generate_pdf_body d image_files with
        | Ok (answer, d') => Some (answer, Some d')
        | Raise _ => Some (HTTPException 500, None)
        end
    end.

(** File [f] of directory [d] is processed with the flag [b]. *)
Definition processed_with (d : directory) (f : string) (b : bool) : Prop :=
  exists contents out,
    lookup d f = Some contents /\ process contents = Ok (out, b).


End Handler.

(** A name [generate_pdf] takes for an image: [img_*.jpg] or [img_*.png]. *)
Definition is_image_name (name : string) : bool :=
  String.prefix "img_" name
  && (has_suffix ".jpg" name || has_suffix ".png" name).

(** The images [generate_pdf] works on, before sorting. *)
Definition globbed (d : directory) : list string :=
  glob_img d ".jpg" ++ glob_img d ".png".

(** A frame without any contour. *)
Definition blank_frame : scenario := {|
  frame_shape := (800, 1000)%Z;
  extracted := Ok [];
  approximation := fun c _ => Ok c;
  sharpness_fault := None
|}.

(** A worker library on top of the synthetic imaging library: every saved
    image is the same two bytes, every image file is 800 x 600, and a
    document takes one byte per canvas operation. *)
Definition plain_worker (sc : scenario) : @WorkerLib (synthetic sc) := {|
  save_png := fun _ => Ok png_magic;
  file_image_size := fun _ => Ok (800, 600)%Z;
  file_draw_fault := fun _ => Ok tt;
  document_bytes := fun c => map (fun _ => Init.Byte.x25) c;
  path_text := fun name => ("/data/job/" ++ name)%string;
  page_size := (595.27, 841.89);
  clock_text := "2025-01-01 00:00:00"
|}.

(** A directory with one image, ready to be worked on. *)
Definition one_image : directory :=
  [ ("READY.txt"%string, []); ("img_1.png"%string, png_magic);
    ("notes.txt"%string, [Init.Byte.x68; Init.Byte.x69]) ].

(** The same with an image file that is empty. *)
Definition empty_image : directory :=
  [ ("READY.txt"%string, []); ("img_1.png"%string, []) ].

(** A directory that is ready but has no image. *)
Definition no_image : directory :=
  [ ("READY.txt"%string, []);
    ("notes.txt"%string, [Init.Byte.x68; Init.Byte.x69]) ].

(** * Properties *)

(** ** Comparisons on reals *)

Lemma Rltb_true (x y : R) : Rltb x y = true <-> x < y.
Proof. unfold Rltb; destruct (Rlt_dec x y); split; intros; (assumption || congruence). Qed.

Lemma Rltb_false (x y : R) : Rltb x y = false <-> y <= x.
Proof.
  unfold Rltb; destruct (Rlt_dec x y); split; intros; try congruence; lra.
Qed.


Lemma Rleb_false (x y : R) : Rleb x y = false <-> y < x.
Proof.
  unfold Rleb; destruct (Rle_dec x y); split; intros; try congruence; lra.
Qed.


Lemma Reqb_false (x y : R) : Reqb x y = false <-> x <> y.
Proof.
  unfold Reqb; destruct (Req_dec_T x y); split; intros; try congruence; contradiction.
Qed.

(** Decide the comparisons of a goal whose operands are numerals. *)
Ltac rdec :=
  unfold Rltb, Rleb, Reqb;
  repeat match goal with
    | |- context [Rlt_dec ?a ?b] => destruct (Rlt_dec a b); [ try lra | try lra ]
    | |- context [Rle_dec ?a ?b] => destruct (Rle_dec a b); [ try lra | try lra ]
    | |- context [Req_dec_T ?a ?b] => destruct (Req_dec_T a b); [ try lra | try lra ]
    end.

(** ** [int()] of a square root *)

Lemma py_int_nonneg (x : R) (z : Z) :
  (0 <= z)%Z -> IZR z <= x < IZR z + 1 -> py_int x = z.
Proof.
  intros Hz [Hlo Hhi]. unfold py_int.
  assert (0 <= IZR z) by (apply IZR_le; assumption).
  destruct (Rle_dec 0 x) as [_ | Hn]; [ | lra ].
  symmetry. apply Int_part_spec. lra.
Qed.

Lemma py_int_sqrt (x : R) (z : Z) :
  (0 <= z)%Z -> IZR (z * z) <= x < IZR ((z + 1) * (z + 1)) ->
  py_int (sqrt x) = z.
Proof.
  intros Hz [Hlo Hhi]. rewrite mult_IZR in Hlo, Hhi. rewrite plus_IZR in Hhi.
  assert (Hz' : 0 <= IZR z) by (apply IZR_le; assumption).
  apply py_int_nonneg; [ assumption | split ].
  - rewrite <- (sqrt_square (IZR z)) by assumption.
    apply sqrt_le_1_alt; assumption.
  - rewrite <- (sqrt_square (IZR z + 1)) by lra.
    apply sqrt_lt_1_alt; split; [ nra | assumption ].
Qed.

(** ** [argmin] and [argmax] select an extreme element *)

Lemma argmin_from_spec (l : list R) :
  forall best best_i i,
    let r := argmin_from best best_i i l in
    (r = best_i /\ Forall (fun x => best <= x) l)
    \/ (exists k, r = (i + k)%nat /\ (k < length l)%nat
                  /\ nth k l 0 <= best
                  /\ Forall (fun x => nth k l 0 <= x) l).
Proof.
  induction l as [ | x rest IH]; intros best best_i i; simpl.
  - left; split; [ reflexivity | constructor ].
  - destruct (Rltb x best) eqn:Hx.
    + apply Rltb_true in Hx. right.
      destruct (IH x i (S i)) as [[Hr Hall] | [k [Hr [Hk [Hle Hall]]]]].
      * exists 0%nat. simpl. repeat split; try lia; try lra.
        constructor; [ lra | assumption ].
      * exists (S k). simpl. repeat split; try lia; try lra.
        constructor; assumption.
    + apply Rltb_false in Hx.
      destruct (IH best best_i (S i)) as [[Hr Hall] | [k [Hr [Hk [Hle Hall]]]]].
      * left. split; [ assumption | constructor; assumption ].
      * right. exists (S k). simpl. repeat split; try lia; try lra.
        constructor; [ lra | assumption ].
Qed.

Lemma argmin_spec (l : list R) :
  l <> [] ->
  (argmin l < length l)%nat /\ Forall (fun x => nth (argmin l) l 0 <= x) l.
Proof.
  destruct l as [ | x rest]; [ congruence | intros _ ]. unfold argmin.
  destruct (argmin_from_spec rest x 0%nat 1%nat)
    as [[Hr Hall] | [k [Hr [Hk [Hle Hall]]]]]; cbv zeta in *; rewrite Hr; simpl.
  - split; [ lia | constructor; [ lra | assumption ] ].
  - split; [ lia | constructor; assumption ].
Qed.

Lemma argmax_from_spec (l : list R) :
  forall best best_i i,
    let r := argmax_from best best_i i l in
    (r = best_i /\ Forall (fun x => x <= best) l)
    \/ (exists k, r = (i + k)%nat /\ (k < length l)%nat
                  /\ best <= nth k l 0
                  /\ Forall (fun x => x <= nth k l 0) l).
Proof.
  induction l as [ | x rest IH]; intros best best_i i; simpl.
  - left; split; [ reflexivity | constructor ].
  - destruct (Rltb best x) eqn:Hx.
    + apply Rltb_true in Hx. right.
      destruct (IH x i (S i)) as [[Hr Hall] | [k [Hr [Hk [Hle Hall]]]]].
      * exists 0%nat. simpl. repeat split; try lia; try lra.
        constructor; [ lra | assumption ].
      * exists (S k). simpl. repeat split; try lia; try lra.
        constructor; assumption.
    + apply Rltb_false in Hx.
      destruct (IH best best_i (S i)) as [[Hr Hall] | [k [Hr [Hk [Hle Hall]]]]].
      * left. split; [ assumption | constructor; assumption ].
      * right. exists (S k). simpl. repeat split; try lia; try lra.
        constructor; [ lra | assumption ].
Qed.

Lemma argmax_spec (l : list R) :
  l <> [] ->
  (argmax l < length l)%nat /\ Forall (fun x => x <= nth (argmax l) l 0) l.
Proof.
  destruct l as [ | x rest]; [ congruence | intros _ ]. unfold argmax.
  destruct (argmax_from_spec rest x 0%nat 1%nat)
    as [[Hr Hall] | [k [Hr [Hk [Hle Hall]]]]]; cbv zeta in *; rewrite Hr; simpl.
  - split; [ lia | constructor; [ lra | assumption ] ].
  - split; [ lia | constructor; assumption ].
Qed.

Lemma pick_min_spec (key : point -> R) (pts : list point) :
  pts <> [] ->
  In (pick_min key pts) pts
  /\ forall q, In q pts -> key (pick_min key pts) <= key q.
Proof.
  intros Hne. unfold pick_min.
  assert (Hm : map key pts <> []) by (destruct pts; simpl; congruence).
  destruct (argmin_spec _ Hm) as [Hlt Hall]. rewrite length_map in Hlt.
  split; [ apply nth_In; assumption | ].
  intros q Hq. rewrite Forall_forall in Hall.
  rewrite (nth_indep _ 0 (key origin)) in Hall by (rewrite length_map; assumption).
  rewrite map_nth in Hall. apply Hall, in_map, Hq.
Qed.

Lemma pick_max_spec (key : point -> R) (pts : list point) :
  pts <> [] ->
  In (pick_max key pts) pts
  /\ forall q, In q pts -> key q <= key (pick_max key pts).
Proof.
  intros Hne. unfold pick_max.
  assert (Hm : map key pts <> []) by (destruct pts; simpl; congruence).
  destruct (argmax_spec _ Hm) as [Hlt Hall]. rewrite length_map in Hlt.
  split; [ apply nth_In; assumption | ].
  intros q Hq. rewrite Forall_forall in Hall.
  rewrite (nth_indep _ 0 (key origin)) in Hall by (rewrite length_map; assumption).
  rewrite map_nth in Hall. apply Hall, in_map, Hq.
Qed.

Lemma order_corners_picks (pts : list point) :
  length pts = 4%nat ->
  _order_corners pts
  = Ok [ pick_min coord_sum pts; pick_min coord_diff pts;
         pick_max coord_sum pts; pick_max coord_diff pts ].
Proof. intros H. unfold _order_corners. rewrite H. reflexivity. Qed.



Ltac eval_order_corners :=
  unfold _order_corners; cbn [length Nat.eqb negb map];
  unfold argmin, argmax, coord_sum, coord_diff;
  cbn [argmin_from argmax_from fst snd nth];
  repeat (rdec; cbn [argmin_from argmax_from fst snd nth]).



Lemma order_corners_rhombus :
  _order_corners rhombus = Ok [(4, 0); (4, 0); (4, 10); (4, 10)].
Proof. unfold rhombus. eval_order_corners. reflexivity. Qed.

Example order_corners_sheet :
  _order_corners sheet = Ok [(10, 20); (310, 30); (320, 440); (5, 430)].
Proof. unfold sheet. eval_order_corners. reflexivity. Qed.

Example order_corners_sheet_rotated :
  _order_corners [(320, 440); (5, 430); (10, 20); (310, 30)]
  = Ok [(10, 20); (310, 30); (320, 440); (5, 430)].
Proof. eval_order_corners. reflexivity. Qed.

Lemma py_int_sqrt_0 : py_int (sqrt 0) = 0%Z.
Proof. apply (py_int_sqrt 0 0); [ lia | cbn; lra ]. Qed.

(** Four collinear points: the size is raised to 100 x 100. *)
Example rectifier_size_collinear :
  rectifier_size [(0, 0); (1, 0); (2, 0); (3, 0)] = Ok (100, 100)%Z.
Proof.
  unfold rectifier_size.
  replace (_order_corners [(0, 0); (1, 0); (2, 0); (3, 0)])
    with (Ok (A := list point) [(0, 0); (3, 0); (3, 0); (0, 0)])
    by (symmetry; eval_order_corners; reflexivity).
  cbn [bind]. unfold output_size; cbn [fst snd].
  replace ((3 - 0) ^ 2 + (0 - 0) ^ 2) with 9 by lra.
  replace ((3 - 3) ^ 2 + (0 - 0) ^ 2) with 0 by lra.
  replace ((0 - 0) ^ 2 + (0 - 0) ^ 2) with 0 by lra.
  rewrite py_int_sqrt_0.
  rewrite (py_int_sqrt 9 3) by (cbn; lia || lra).
  reflexivity.
Qed.



(** ** C3: corner ordering under permutation *)



Ltac four_points H :=
  cbn [In] in H;
  destruct H as [H | [H | [H | [H | H]]]]; [ subst .. | contradiction ].



(** ** C9: the ordering selects, it does not permute *)

(** C9: the ordering of four points is four of the input points, and for
    [rhombus] the top point fills the top-left and the top-right slot, the
    bottom point the two bottom slots, and the left and right points are
    absent: the output is not a permutation of the input. *)
Theorem order_corners_selects (p0 p1 p2 p3 : point) :
  (exists tl tr br bl,
      _order_corners [p0; p1; p2; p3] = Ok [tl; tr; br; bl]
      /\ forall p, In p [tl; tr; br; bl] -> In p [p0; p1; p2; p3])
  /\ (exists pts rect twice absent,
         length pts = 4%nat /\ NoDup pts
         /\ _order_corners pts = Ok rect
         /\ In twice pts /\ In absent pts
         /\ nth 0 rect origin = twice /\ nth 1 rect origin = twice
         /\ ~ In absent rect
         /\ ~ Permutation pts rect).
Proof.
  split.
  - set (pts := [p0; p1; p2; p3]).
    assert (Hne : pts <> []) by (unfold pts; congruence).
    exists (pick_min coord_sum pts), (pick_min coord_diff pts),
      (pick_max coord_sum pts), (pick_max coord_diff pts).
    split; [ apply order_corners_picks; reflexivity | ].
    intros p Hp. four_points Hp.
    + apply pick_min_spec; assumption.
    + apply pick_min_spec; assumption.
    + apply pick_max_spec; assumption.
    + apply pick_max_spec; assumption.
  - exists rhombus, [(4, 0); (4, 0); (4, 10); (4, 10)], (4, 0), (8, 5).
    assert (Habsent : ~ In (8, 5) [(4, 0); (4, 0); (4, 10); (4, 10)]).
    { intros H. four_points H; injection H; intros; lra. }
    repeat split.
    + unfold rhombus. repeat constructor; cbn [In]; intros H;
        repeat (destruct H as [H | H]; [ injection H; intros; lra | ]);
        contradiction.
    + apply order_corners_rhombus.
    + left; reflexivity.
    + right; left; reflexivity.
    + assumption.
    + intros Hperm. apply Habsent.
      apply (Permutation_in _ Hperm). right; left; reflexivity.
Qed.

(** ** C4: output size of the Rectifier *)


(** ** The Quadrilateral Validator *)







Lemma invalid_angle_false (a : R) : invalid_angle a = false <-> angle_ok a.
Proof.
  unfold invalid_angle, angle_ok. rewrite orb_false_iff, !Rleb_false. tauto.
Qed.

(** What the Quadrilateral Validator accepts: the angle at every vertex,
    between the edges to its two neighbours, is defined and lies strictly
    between 20 and 160 degrees. *)
Lemma valid_quadrilateral_iff (p0 p1 p2 p3 : point) :
  _is_valid_quadrilateral [p0; p1; p2; p3] = true
  <-> exists a0 a1 a2 a3,
        corner_angle p0 p1 p2 = Some a0 /\ corner_angle p1 p2 p3 = Some a1
        /\ corner_angle p2 p3 p0 = Some a2 /\ corner_angle p3 p0 p1 = Some a3
        /\ angle_ok a0 /\ angle_ok a1 /\ angle_ok a2 /\ angle_ok a3.
Proof.
  unfold _is_valid_quadrilateral.
  cbn [length Nat.eqb negb seq angles_loop nth Nat.add Nat.modulo Nat.divmod fst snd Nat.sub].
  split.
  - destruct (corner_angle p0 p1 p2) as [a0 | ]; [ | discriminate ].
    destruct (corner_angle p1 p2 p3) as [a1 | ]; [ | discriminate ].
    destruct (corner_angle p2 p3 p0) as [a2 | ]; [ | discriminate ].
    destruct (corner_angle p3 p0 p1) as [a3 | ]; [ | discriminate ].
    cbn [app filter].
    destruct (invalid_angle a0) eqn:H0; [ discriminate | ].
    destruct (invalid_angle a1) eqn:H1; [ discriminate | ].
    destruct (invalid_angle a2) eqn:H2; [ discriminate | ].
    destruct (invalid_angle a3) eqn:H3; [ discriminate | ].
    intros _. exists a0, a1, a2, a3.
    rewrite invalid_angle_false in H0, H1, H2, H3. auto 10.
  - intros (a0 & a1 & a2 & a3 & -> & -> & -> & -> & H0 & H1 & H2 & H3).
    cbn [app filter].
    apply invalid_angle_false in H0, H1, H2, H3.
    rewrite H0, H1, H2, H3. reflexivity.
Qed.

(** ** C6: coincident points *)



(** ** C7: the Corner Validator *)

Lemma out_of_bounds_true (height width : Z) (p : point) :
  out_of_bounds height width p = true <-> beyond_margin height width p.
Proof.
  unfold out_of_bounds, beyond_margin, margin. destruct p as [x y]; cbn [fst snd].
  rewrite !orb_true_iff, !Rltb_true. tauto.
Qed.

Lemma contourArea_nonneg (c : contour) : 0 <= contourArea c.
Proof. unfold contourArea. apply Rabs_pos. Qed.

Lemma contourArea_frame (height width : Z) :
  contourArea (frame_corners height width) = Rabs (IZR width * IZR height).
Proof.
  unfold contourArea, frame_corners. cbn [last shoelace_from fst snd].
  f_equal. lra.
Qed.

Lemma validate_corners_four (height width : Z) (p0 p1 p2 p3 : point) :
  (height * width <> 0)%Z ->
  let pts := [p0; p1; p2; p3] in
  let area_ratio := contourArea pts / IZR (height * width) in
  _validate_corners pts (height, width)
  = negb (existsb (out_of_bounds height width) pts
          || Rltb area_ratio 0.05 || Rltb 0.98 area_ratio).
Proof.
  intros Hne pts area_ratio. unfold _validate_corners, _validate_corners_body.
  cbn [length Nat.eqb negb].
  fold pts. destruct (existsb (out_of_bounds height width) pts); [ reflexivity | ].
  unfold py_div. destruct (Req_dec_T (IZR (height * width)) 0) as [E | _].
  { apply eq_IZR in E. contradiction. }
  cbn [bind orb]. rewrite (Rabs_pos_eq (contourArea pts)) by apply contourArea_nonneg.
  fold area_ratio.
  destruct (Rltb area_ratio 0.05); [ reflexivity | ].
  destruct (Rltb 0.98 area_ratio); reflexivity.
Qed.

(** C7: for every frame shape the quadrilateral on the corners of the
    frame is rejected; and for a frame of positive height and width the
    Corner Validator rejects four points exactly when one of them lies more
    than 50 units outside the frame on an axis, or the ratio of their
    absolute shoelace area to the frame area is below 5% or above 98%. *)
Theorem validate_corners_spec :
  (forall height width : Z,
      _validate_corners (frame_corners height width) (height, width) = false)
  /\ (forall (height width : Z) (p0 p1 p2 p3 : point),
         (0 < height)%Z -> (0 < width)%Z ->
         let pts := [p0; p1; p2; p3] in
         let area_ratio := contourArea pts / IZR (height * width) in
         _validate_corners pts (height, width) = false
         <-> ((exists p, In p pts /\ beyond_margin height width p)
              \/ area_ratio < 0.05 \/ 0.98 < area_ratio)).
Proof.
  split.
  - intros height width.
    destruct (Z.eq_dec (height * width) 0) as [E | Hne].
    + unfold _validate_corners, _validate_corners_body, frame_corners.
      cbn [length Nat.eqb negb].
      match goal with |- context [existsb ?f ?l] => destruct (existsb f l) end;
        [ reflexivity | ].
      unfold py_div. rewrite E.
      destruct (Req_dec_T 0 0) as [_ | N]; [ reflexivity | contradiction ].
    + pose proof (validate_corners_four height width (0, 0) (IZR width, 0)
                    (IZR width, IZR height) (0, IZR height) Hne) as Hv.
      pose proof (contourArea_frame height width) as Ha.
      cbv zeta in Hv. unfold frame_corners in Ha |- *.
      rewrite Hv, Ha. clear Hv Ha.
      apply negb_false_iff.
      assert (Hr : IZR (height * width) <> 0)
        by (intros E; apply eq_IZR in E; contradiction).
      rewrite mult_IZR in *.
      set (h := IZR height) in *. set (w := IZR width) in *.
      destruct (Rltb (Rabs (w * h) / (h * w)) 0.05) eqn:Hlo;
        [ apply orb_true_iff; left; apply orb_true_r | ].
      apply orb_true_iff; right. apply Rltb_true. apply Rltb_false in Hlo.
      assert (Hpos : 0 < h * w).
      { destruct (Rlt_dec 0 (h * w)) as [ | N]; [ assumption | exfalso ].
        assert (Hneg : h * w < 0) by lra.
        assert (Hq : Rabs (w * h) / (h * w) <= 0).
        { unfold Rdiv. pose proof (Rabs_pos (w * h)).
          assert (/ (h * w) < 0) by (apply Rinv_lt_0_compat; assumption).
          nra. }
        lra. }
      rewrite Rabs_pos_eq by nra.
      replace (w * h / (h * w)) with 1 by (field; split; nra). lra.
  - intros height width p0 p1 p2 p3 Hh Hw pts area_ratio.
    unfold pts at 1. rewrite validate_corners_four by lia.
    fold pts. fold area_ratio.
    rewrite negb_false_iff, !orb_true_iff, !Rltb_true, existsb_exists.
    split.
    + intros [[(p & Hin & Hout) | H] | H]; auto.
      left. exists p. split; [ assumption | apply out_of_bounds_true; assumption ].
    + intros [(p & Hin & Hout) | [H | H]]; auto.
      left; left. exists p. split; [ assumption | apply out_of_bounds_true; assumption ].
Qed.

(** The characterisation at a 400 x 300 frame and its own corners. *)
Lemma validate_corners_spec_witness :
  let pts := [(0, 0); (300, 0); (300, 400); (0, 400)] in
  _validate_corners pts (400, 300)%Z = false
  <-> ((exists p, In p pts /\ beyond_margin 400 300 p)
       \/ contourArea pts / IZR (400 * 300) < 0.05
       \/ 0.98 < contourArea pts / IZR (400 * 300)).
Proof.
  apply (proj2 validate_corners_spec 400%Z 300%Z); lia.
Defined.

(** Corners on the outermost pixel centres of a small frame enclose less
    than 98% of its area ([49 * 49 / (50 * 50)] is 96.04%) and are
    accepted: the frame boundary of the validator is the rectangle from
    [(0, 0)] to [(width, height)]. *)
Example validate_corners_pixel_centres :
  _validate_corners [(0, 0); (49, 0); (49, 49); (0, 49)] (50, 50)%Z = true.
Proof.
  rewrite validate_corners_four by lia.
  apply negb_true_iff.
  cbn [existsb out_of_bounds]. unfold margin.
  change (50 * 50)%Z with 2500%Z.
  match goal with |- context [contourArea ?c] =>
    replace (contourArea c) with 2401 end.
  - rdec; reflexivity.
  - unfold contourArea. cbn [last shoelace_from fst snd].
    unfold Rabs. destruct (Rcase_abs _); lra.
Qed.

(** ** Loops and sorting *)

Lemma for_first_found {A B : Type} (xs : list A) (body : A -> result (option B))
  (b : B) :
  for_first xs body = Ok (Some b) -> exists x, In x xs /\ body x = Ok (Some b).
Proof.
  induction xs as [ | x rest IH]; cbn [for_first]; [ discriminate | ].
  destruct (body x) as [[b' | ] | e] eqn:Hx; cbn [bind]; intros H.
  - injection H as <-. exists x. split; [ left; reflexivity | assumption ].
  - destruct (IH H) as (y & Hy & Hb). exists y. split; [ right | ]; assumption.
  - discriminate.
Qed.

Lemma for_first_head {A B : Type} (x : A) (rest : list A)
  (body : A -> result (option B)) (b : B) :
  body x = Ok (Some b) -> for_first (x :: rest) body = Ok (Some b).
Proof. intros H. cbn [for_first]. rewrite H. reflexivity. Qed.

Lemma In_insert_by_area (c x : contour) (l : list contour) :
  In c (insert_by_area x l) <-> c = x \/ In c l.
Proof.
  induction l as [ | d rest IH]; cbn [insert_by_area].
  - cbn [In]. intuition congruence.
  - destruct (Rltb (contourArea d) (contourArea x)); cbn [In].
    + intuition congruence.
    + rewrite IH. intuition congruence.
Qed.

Lemma In_sorted_by_area (c : contour) (l : list contour) :
  In c (sorted_by_area l) <-> In c l.
Proof.
  unfold sorted_by_area.
  assert (H : forall acc, In c (fold_left (fun acc c => insert_by_area c acc) l acc)
                          <-> In c l \/ In c acc).
  { induction l as [ | x rest IH]; intros acc; cbn [fold_left In].
    - tauto.
    - rewrite IH, In_insert_by_area. intuition congruence. }
  rewrite H. cbn [In]. tauto.
Qed.

Lemma In_firstn {A : Type} (n : nat) (l : list A) (x : A) :
  In x (firstn n l) -> In x l.
Proof.
  intros H. rewrite <- (firstn_skipn n l). apply in_or_app. left. assumption.
Qed.

Section PipelineProperties.

Context {lib : ImagingLib}.

(** ** C10: the Contour Selector never raises *)

(** C10: the Contour Selector always returns; when its extraction or
    selection code raises, in particular when contour extraction or polygon
    approximation does, the answer is none, the same answer as for a search
    that ends without a quadrilateral. *)
Theorem find_best_contour_never_raises (edged : image) (img_shape : Z * Z)
  (ratio : R) :
  (exists r, _find_best_contour edged img_shape ratio = Ok r)
  /\ (forall e, _find_best_contour_body edged img_shape ratio = Raise e ->
                _find_best_contour edged img_shape ratio = Ok None)
  /\ (forall e, findContours edged = Raise e ->
                _find_best_contour edged img_shape ratio = Ok None)
  /\ (_find_best_contour_body edged img_shape ratio = Ok None ->
      _find_best_contour edged img_shape ratio = Ok None).
Proof.
  unfold _find_best_contour.
  repeat split.
  - destruct (_find_best_contour_body edged img_shape ratio) as [r | e];
      cbn [try_except]; eauto.
  - intros e ->. reflexivity.
  - intros e He. unfold _find_best_contour_body. rewrite He. reflexivity.
  - intros ->. reflexivity.
Qed.

(** ** C5: what the Contour Selector returns *)

Lemma valid_quadrilateral_angles (q : list point) :
  _is_valid_quadrilateral q = true -> length q = 4%nat /\ angles_in_range q.
Proof.
  intros H.
  assert (Hlen : length q = 4%nat).
  { unfold _is_valid_quadrilateral in H.
    destruct (length q =? 4)%nat eqn:E; [ apply Nat.eqb_eq; assumption | discriminate ]. }
  split; [ assumption | ].
  destruct q as [ | p0 [ | p1 [ | p2 [ | p3 [ | ? ?]]]]]; try discriminate.
  apply valid_quadrilateral_iff in H.
  destruct H as (a0 & a1 & a2 & a3 & E0 & E1 & E2 & E3 & H0 & H1 & H2 & H3).
  intros i Hi.
  destruct i as [ | [ | [ | [ | i]]]]; [ | | | | lia ];
    cbn [nth Nat.add Nat.modulo Nat.divmod fst snd Nat.sub]; eauto.
Qed.

Lemma try_contour_found (img_area : Z) (ratio : R) (c : contour)
  (q : list point) :
  try_contour img_area ratio c = Ok (Some q) ->
  IZR img_area * 0.05 <= contourArea c <= IZR img_area * 0.98
  /\ exists eps approx,
       In eps epsilon_factors
       /\ approxPolyDP c (eps * arcLength c) = Ok approx
       /\ length approx = 4%nat
       /\ q = scale ratio approx
       /\ _is_valid_quadrilateral q = true.
Proof.
  unfold try_contour.
  destruct (length c <? 4)%nat; [ discriminate | ].
  cbn [cv2_contourArea bind try_except].
  destruct (Rltb (contourArea c) (IZR img_area * 0.05)) eqn:Hlo; [ discriminate | ].
  destruct (Rltb (IZR img_area * 0.98) (contourArea c)) eqn:Hhi; [ discriminate | ].
  destruct (Reqb (arcLength c) 0); [ discriminate | ].
  apply Rltb_false in Hlo, Hhi.
  intros H. split; [ lra | ].
  unfold epsilon_sweep in H. apply for_first_found in H.
  destruct H as (eps & Heps & H). exists eps.
  destruct (approxPolyDP c (eps * arcLength c)) as [approx | e]; [ | discriminate ].
  cbn [bind] in H. exists approx.
  destruct (length approx =? 4)%nat eqn:Hlen; [ | discriminate ].
  destruct (_is_valid_quadrilateral (scale ratio approx)) eqn:Hvalid; [ | discriminate ].
  injection H as <-. apply Nat.eqb_eq in Hlen. auto.
Qed.


End PipelineProperties.

Section ProcessProperties.

Context {lib : ImagingLib}.

Local Open Scope result_scope.

(** ** The stages never raise *)

Lemma transform_perspective_total (img : image) (corners : list point) :
  exists out, _transform_perspective img corners = Ok out.
Proof.
  unfold _transform_perspective.
  match goal with |- context [try_except ?b _] => destruct b end;
    cbn [try_except]; eauto.
Qed.

Lemma enhance_total (v : variant) (img : image) :
  exists out, enhance v img = Ok out.
Proof.
  destruct v; unfold enhance, _enhance_quality, _enhance_quality_aggressive;
    match goal with |- context [try_except ?b _] => destruct b end;
    cbn [try_except]; eauto.
Qed.

(** X20: a frame the Rectifier returns is the original one, or comes from
    the warp called with the size [rectifier_size] computes, at least
    100 x 100. *)
Lemma transform_perspective_result (img out : image) (p0 p1 p2 p3 : point) :
  let pts := [p0; p1; p2; p3] in
  _transform_perspective img pts = Ok out ->
  out = img
  \/ exists rect size M,
       _order_corners pts = Ok rect
       /\ rectifier_size pts = Ok size
       /\ (100 <= fst size)%Z /\ (100 <= snd size)%Z
       /\ getPerspectiveTransform rect (dst_rect size) = Ok M
       /\ warpPerspective img M size = Ok out.
Proof.
  intros pts. unfold _transform_perspective, rectifier_size.
  rewrite (order_corners_picks pts) by reflexivity. cbn [bind].
  set (rect := [pick_min coord_sum pts; pick_min coord_diff pts;
                pick_max coord_sum pts; pick_max coord_diff pts]).
  set (size := output_size _ _ _ _).
  destruct (getPerspectiveTransform rect (dst_rect size)) as [M | e] eqn:HM;
    cbn [bind try_except].
  - destruct (warpPerspective img M size) as [warped | e] eqn:Hw;
      cbn [bind try_except]; intros H; injection H as <-.
    + right. exists rect, size, M.
      repeat split; try assumption; unfold size, output_size; cbn [fst snd]; lia.
    + left. reflexivity.
  - intros H; injection H as <-. left. reflexivity.
Qed.

Ltac step_binds :=
  repeat match goal with
    | |- context [bind ?c _] =>
        lazymatch c with
        | context [bind] => fail
        | _ => destruct c as [ [[? ?] ?] | ? ] || destruct c; cbn [bind try_except]
        end
    end.

Lemma enhance_staged_eq (v : variant) (img : image) :
  enhance v img = enhance_staged v img.
Proof.
  destruct v;
    unfold enhance, enhance_staged, _enhance_quality, _enhance_quality_aggressive,
      stage_input, before_tone, run_tone_stage, gain;
    step_binds; reflexivity.
Qed.

(** ** C8: a fault in a tone adjustment *)

(** C8 (amended): when a tone-adjustment stage of either enhancer variant
    raises, the fault is caught and the enhancer returns the buffer it was
    called with, the one from before the whole enhancement. *)
Theorem tone_fault_returns_original (v : variant) (s : tone_stage)
  (img pre : image) (e : exn) :
  stage_faults v s img pre e -> enhance v img = Ok img.
Proof.
  intros [Hin Hfault]. rewrite enhance_staged_eq. unfold enhance_staged.
  destruct s; cbn [stage_input] in Hin |- *.
  - rewrite Hin. cbn [bind]. rewrite Hfault. reflexivity.
  - destruct (before_tone v img) as [p0 | e0]; [ | discriminate ].
    cbn [bind] in Hin |- *. rewrite Hin. cbn [bind]. rewrite Hfault. reflexivity.
  - rewrite Hin. cbn [bind]. rewrite Hfault. reflexivity.
Qed.

(** ** C1: [process] returns *)

(** C1: on a buffer that decodes, [process] returns a result; and an
    exception leaves [process] only when decoding the buffer, in the
    [except] branch, raises it. *)
Theorem process_returns (image_bytes : list Init.Byte.byte) :
  (well_formed image_bytes ->
   exists out transformed, process image_bytes = Ok (out, transformed))
  /\ (forall e, process image_bytes = Raise e ->
                pil_open_rgb image_bytes = Raise e).
Proof.
  unfold process. split.
  - intros (img & pil_img & _ & Hpil).
    destruct (process_body image_bytes) as [[out flag] | e]; cbn [try_except].
    + eauto.
    + rewrite Hpil. cbn [bind]. eauto.
  - intros e.
    destruct (process_body image_bytes) as [[out flag] | e']; cbn [try_except].
    + discriminate.
    + destruct (pil_open_rgb image_bytes); cbn [bind]; congruence.
Qed.

(** ** C2: the [transformed] flag *)


End ProcessProperties.

(** ** A synthetic imaging library *)

(** ** C8: the buffer returned is not the one the failing stage received *)

(** C8, as stated, fails: in the standard enhancer the sharpness stage
    receives the contrast-adjusted buffer, number 8, and raises on it; the
    enhancer returns buffer 0, the frame it was called with. *)
Lemma tone_fault_does_not_return_stage_input :
  @stage_faults (synthetic failing_sharpness) Standard Sharpness
    0%nat 8%nat (LibraryError 3)
  /\ @enhance (synthetic failing_sharpness) Standard 0%nat <> Ok 8%nat
  /\ @enhance (synthetic failing_sharpness) Standard 0%nat = Ok 0%nat.
Proof.
  split; [ split; reflexivity | split ].
  - intros H. discriminate H.
  - reflexivity.
Qed.

(** The same fault, read the way the code behaves. *)
Lemma tone_fault_returns_original_witness :
  @enhance (synthetic failing_sharpness) Standard 0%nat = Ok 0%nat.
Proof.
  apply (@tone_fault_returns_original (synthetic failing_sharpness)
           Standard Sharpness 0%nat 8%nat (LibraryError 3)).
  split; reflexivity.
Defined.

(** ** C10: a fault in contour extraction *)

(** Contour extraction raises: the selector answers none. *)
Lemma find_best_contour_never_raises_witness :
  @_find_best_contour (synthetic failing_extraction) 5%nat (800, 1000)%Z 1
  = Ok None.
Proof.
  apply (proj1 (proj2 (proj2
           (@find_best_contour_never_raises (synthetic failing_extraction)
              5%nat (800, 1000)%Z 1))) (LibraryError 7)).
  reflexivity.
Defined.

(** ** Evaluating the validators and the selector *)

Lemma norm_nonzero (v : point) : 0 < dot v v -> Reqb (norm v) 0 = false.
Proof.
  intros H. apply Reqb_false. unfold norm. fold (dot v v).
  pose proof (sqrt_lt_R0 _ H). lra.
Qed.

Lemma degrees_right_angle : degrees (PI / 2) = 90.
Proof. unfold degrees. pose proof PI_neq0. field. assumption. Qed.

(** A vertex whose two edges are perpendicular has an angle of 90 degrees. *)
Lemma corner_angle_right (p1 p2 p3 : point) :
  0 < dot (vsub p1 p2) (vsub p1 p2) ->
  0 < dot (vsub p3 p2) (vsub p3 p2) ->
  dot (vsub p1 p2) (vsub p3 p2) = 0 ->
  corner_angle p1 p2 p3 = Some 90.
Proof.
  intros H1 H2 H0. unfold corner_angle.
  rewrite (norm_nonzero _ H1), (norm_nonzero _ H2). cbn [orb].
  rewrite H0. unfold Rdiv. rewrite Rmult_0_l.
  unfold clip. rdec. rewrite acos_0, degrees_right_angle. reflexivity.
Qed.

Lemma valid_quadrilateral_rectangle (x0 y0 x1 y1 : R) :
  x0 < x1 -> y0 < y1 ->
  _is_valid_quadrilateral [(x0, y0); (x0, y1); (x1, y1); (x1, y0)] = true.
Proof.
  intros Hx Hy. apply valid_quadrilateral_iff.
  exists 90, 90, 90, 90. unfold angle_ok.
  repeat split; try lra;
    apply corner_angle_right; unfold dot, vsub; cbn [fst snd]; nra.
Qed.


Lemma dist_horizontal (x0 x1 y : R) : x0 <= x1 -> dist (x0, y) (x1, y) = x1 - x0.
Proof.
  intros H. unfold dist; cbn [fst snd].
  replace ((x0 - x1) * (x0 - x1) + (y - y) * (y - y))
    with ((x1 - x0) * (x1 - x0)) by ring.
  apply sqrt_square. lra.
Qed.

Section SelectorRuns.

Context {lib : ImagingLib}.

(** The selector returns at the first tolerance for a single contour that
    passes the filters and whose approximation is a valid quadrilateral. *)
Lemma find_best_contour_single (edged : image) (img_shape : Z * Z) (ratio : R)
  (c approx : contour) :
  findContours edged = Ok [c] ->
  (4 <= length c)%nat ->
  area_in_range img_shape c ->
  arcLength c <> 0 ->
  approxPolyDP c (0.02 * arcLength c) = Ok approx ->
  length approx = 4%nat ->
  _is_valid_quadrilateral (scale ratio approx) = true ->
  _find_best_contour edged img_shape ratio = Ok (Some (scale ratio approx)).
Proof.
  intros Hfind Hlen [Hlo Hhi] Hperi Happrox Hlen4 Hvalid.
  unfold _find_best_contour, _find_best_contour_body. rewrite Hfind.
  cbn [bind sorted_by_area fold_left insert_by_area firstn].
  rewrite for_first_head with (b := scale ratio approx); [ reflexivity | ].
  unfold try_contour.
  replace (length c <? 4)%nat with false by (symmetry; apply Nat.ltb_ge; assumption).
  cbn [cv2_contourArea bind try_except].
  replace (Rltb (contourArea c) _) with false by (symmetry; apply Rltb_false; assumption).
  replace (Rltb _ (contourArea c)) with false by (symmetry; apply Rltb_false; assumption).
  replace (Reqb (arcLength c) 0) with false by (symmetry; apply Reqb_false; assumption).
  unfold epsilon_sweep, epsilon_factors. apply for_first_head.
  rewrite Happrox. cbn [bind]. rewrite Hlen4, Hvalid. reflexivity.
Qed.

End SelectorRuns.

Lemma contourArea_card : contourArea card = 480000.
Proof.
  unfold contourArea, card. cbn [last shoelace_from fst snd].
  unfold Rabs. destruct (Rcase_abs _); lra.
Qed.



Lemma arcLength_card : arcLength card = 2800.
Proof.
  unfold arcLength, card. cbn [last arc_from].
  rewrite (dist_horizontal 100 900 700) by lra.
  unfold dist; cbn [fst snd].
  replace ((900 - 100) * (900 - 100) + (100 - 100) * (100 - 100)) with (800 * 800) by lra.
  replace ((100 - 100) * (100 - 100) + (100 - 700) * (100 - 700)) with (600 * 600) by lra.
  replace ((900 - 900) * (900 - 900) + (700 - 100) * (700 - 100)) with (600 * 600) by lra.
  rewrite !sqrt_square by lra. lra.
Qed.


Lemma selector_clean_sheet (edged : nat) (r : R) :
  r = 1 ->
  @_find_best_contour (synthetic clean_sheet) edged (800, 1000)%Z r
  = Ok (Some (scale r card)).
Proof.
  intros ->.
  apply (@find_best_contour_single (synthetic clean_sheet)) with (c := card).
  - reflexivity.
  - cbn [length card]. lia.
  - unfold area_in_range. cbn [fst snd].
    change (800 * 1000)%Z with 800000%Z. rewrite contourArea_card. lra.
  - rewrite arcLength_card. lra.
  - reflexivity.
  - reflexivity.
  - unfold scale, card. cbn [map fst snd].
    apply valid_quadrilateral_rectangle; lra.
Qed.


(** ** C5: the area of the returned quadrilateral *)



(** ** Running [process] on the synthetic card *)

Lemma strategy_edge_detection_clean_sheet (img : nat) :
  @_strategy_edge_detection (synthetic clean_sheet) img
  = Ok (Some (scale (800 / 800) card)).
Proof.
  unfold _strategy_edge_detection.
  cbn [shape synthetic frame_shape clean_sheet].
  unfold py_div. destruct (Req_dec_T (800 / 800) 0) as [E | _]; [ lra | ].
  cbn [bind resize cvtColor bilateralFilter GaussianBlur medianBlur synthetic fresh].
  apply for_first_head. unfold edge_params. apply for_first_head.
  cbn [bind Canny dilate erode synthetic fresh].
  apply selector_clean_sheet. lra.
Qed.

Lemma scanner_clean_sheet (img : nat) :
  @_find_document_corners_multi_strategy (synthetic clean_sheet) img
  = Ok (Some (scale (800 / 800) card)).
Proof.
  unfold _find_document_corners_multi_strategy.
  rewrite strategy_edge_detection_clean_sheet. reflexivity.
Qed.

Lemma validate_clean_sheet :
  _validate_corners (scale (800 / 800) card) (800, 1000)%Z = true.
Proof.
  unfold scale, card. cbn [map fst snd].
  rewrite validate_corners_four by lia.
  apply negb_true_iff.
  cbn [existsb out_of_bounds]. unfold margin.
  change (800 * 1000)%Z with 800000%Z.
  match goal with |- context [contourArea ?c] =>
    replace (contourArea c) with 480000 end.
  - rdec; reflexivity.
  - unfold contourArea. cbn [last shoelace_from fst snd].
    unfold Rabs. destruct (Rcase_abs _); lra.
Qed.



(** A buffer both decoders accept. *)
Lemma process_returns_witness :
  exists out transformed,
    @process (synthetic clean_sheet) png_magic
    = Ok (out, transformed).
Proof.
  apply (proj1 (@process_returns (synthetic clean_sheet)
                  png_magic)).
  exists 0%nat, 0%nat. split; reflexivity.
Defined.

(** * Further properties *)

(** ** The Quadrilateral Validator as a geometric predicate *)

Lemma valid_quadrilateral_corners (p0 p1 p2 p3 : point) :
  _is_valid_quadrilateral [p0; p1; p2; p3] = true
  <-> good_corner p0 p1 p2 /\ good_corner p1 p2 p3
      /\ good_corner p2 p3 p0 /\ good_corner p3 p0 p1.
Proof.
  rewrite valid_quadrilateral_iff. unfold good_corner. split.
  - intros (a0 & a1 & a2 & a3 & E0 & E1 & E2 & E3 & H0 & H1 & H2 & H3).
    repeat split; eauto.
  - intros ((a0 & E0 & H0) & (a1 & E1 & H1) & (a2 & E2 & H2) & (a3 & E3 & H3)).
    exists a0, a1, a2, a3. auto 10.
Qed.

Lemma dot_comm (v w : point) : dot v w = dot w v.
Proof. unfold dot. ring. Qed.

Lemma corner_angle_sym (a b c : point) : corner_angle a b c = corner_angle c b a.
Proof.
  unfold corner_angle.
  rewrite (orb_comm (Reqb (norm (vsub a b)) 0)).
  rewrite (dot_comm (vsub a b)), (Rmult_comm (norm (vsub a b))).
  reflexivity.
Qed.

Lemma good_corner_sym (a b c : point) : good_corner a b c <-> good_corner c b a.
Proof. unfold good_corner. rewrite corner_angle_sym. tauto. Qed.

Lemma bool_eq_of_iff (b1 b2 : bool) : (b1 = true <-> b2 = true) -> b1 = b2.
Proof. destruct b1, b2; intros [H1 H2]; auto; symmetry; auto. Qed.

(** X1: the verdict of the Quadrilateral Validator does not depend on the
    vertex the traversal starts at, nor on its direction. *)
Theorem valid_quadrilateral_traversal (p0 p1 p2 p3 : point) :
  _is_valid_quadrilateral [p1; p2; p3; p0]
  = _is_valid_quadrilateral [p0; p1; p2; p3]
  /\ _is_valid_quadrilateral [p3; p2; p1; p0]
     = _is_valid_quadrilateral [p0; p1; p2; p3].
Proof.
  split; apply bool_eq_of_iff; rewrite !valid_quadrilateral_corners.
  - tauto.
  - rewrite (good_corner_sym p3 p2 p1), (good_corner_sym p2 p1 p0),
      (good_corner_sym p1 p0 p3), (good_corner_sym p0 p3 p2). tauto.
Qed.















(** ** The Corner Validator: edge cases and traversal *)

Lemma validate_corners_zero_area (corners : list point) (height width : Z) :
  (height * width = 0)%Z -> _validate_corners corners (height, width) = false.
Proof.
  intros Hz. unfold _validate_corners, _validate_corners_body.
  destruct (negb (length corners =? 4)%nat); [ reflexivity | ].
  destruct (existsb (out_of_bounds height width) corners); [ reflexivity | ].
  unfold py_div. rewrite Hz.
  destruct (Req_dec_T 0 0) as [_ | N]; [ reflexivity | contradiction ].
Qed.

(** X5: the Corner Validator rejects every corner array that does not have
    exactly four points, and rejects everything for a frame of zero area
    (the division of the area by the frame area raises, and the fault is
    answered with a rejection). *)
Theorem validate_corners_degenerate (corners : list point) (height width : Z) :
  length corners <> 4%nat \/ (height * width = 0)%Z ->
  _validate_corners corners (height, width) = false.
Proof.
  intros [Hlen | Hz].
  - unfold _validate_corners, _validate_corners_body.
    apply Nat.eqb_neq in Hlen. rewrite Hlen. reflexivity.
  - apply validate_corners_zero_area. assumption.
Qed.

(** A good quadrilateral in a frame without rows. *)
Lemma validate_corners_degenerate_witness :
  _validate_corners card (0, 1000)%Z = false.
Proof. apply validate_corners_degenerate. right. reflexivity. Defined.

Lemma existsb_rotate {A : Type} (f : A -> bool) (a b c d : A) :
  existsb f [b; c; d; a] = existsb f [a; b; c; d].
Proof. cbn [existsb]. destruct (f a), (f b), (f c), (f d); reflexivity. Qed.

Lemma existsb_reverse {A : Type} (f : A -> bool) (a b c d : A) :
  existsb f [d; c; b; a] = existsb f [a; b; c; d].
Proof. cbn [existsb]. destruct (f a), (f b), (f c), (f d); reflexivity. Qed.

Lemma contourArea_rotate (a b c d : point) :
  contourArea [b; c; d; a] = contourArea [a; b; c; d].
Proof.
  unfold contourArea. cbn [last shoelace_from]. f_equal. ring.
Qed.

Lemma contourArea_reverse (a b c d : point) :
  contourArea [d; c; b; a] = contourArea [a; b; c; d].
Proof.
  unfold contourArea. cbn [last shoelace_from].
  rewrite <- Rabs_Ropp. f_equal. ring.
Qed.

(** X6: the verdict of the Corner Validator on four points does not depend
    on the point the traversal starts at, nor on its direction. *)
Theorem validate_corners_traversal (img_shape : Z * Z) (p0 p1 p2 p3 : point) :
  _validate_corners [p1; p2; p3; p0] img_shape
  = _validate_corners [p0; p1; p2; p3] img_shape
  /\ _validate_corners [p3; p2; p1; p0] img_shape
     = _validate_corners [p0; p1; p2; p3] img_shape.
Proof.
  destruct img_shape as [height width].
  destruct (Z.eq_dec (height * width) 0) as [Hz | Hnz].
  - rewrite !validate_corners_zero_area by assumption. split; reflexivity.
  - rewrite !validate_corners_four by assumption.
    rewrite existsb_rotate, existsb_reverse, contourArea_rotate,
      contourArea_reverse.
    split; reflexivity.
Qed.

(** ** The Rectifier on an upright rectangle *)






(** ** The Contour Selector: largest contour first, fifteen at most *)

Lemma for_first_split {A B : Type} (xs : list A)
  (body : A -> result (option B)) (b : B) :
  for_first xs body = Ok (Some b) ->
  exists pre x post,
    xs = pre ++ x :: post /\ body x = Ok (Some b)
    /\ Forall (fun y => body y = Ok None) pre.
Proof.
  induction xs as [ | x rest IH]; cbn [for_first]; [ discriminate | ].
  destruct (body x) as [[b' | ] | e] eqn:Hx; cbn [bind]; intros H.
  - injection H as <-. exists [], x, rest.
    split; [ reflexivity | split; [ assumption | constructor ] ].
  - destruct (IH H) as (pre & y & post & -> & Hy & Hpre).
    exists (x :: pre), y, post.
    split; [ reflexivity | split; [ assumption | constructor; assumption ] ].
  - discriminate.
Qed.

Lemma insert_by_area_sorted (c : contour) (l : list contour) :
  StronglySorted larger_first l ->
  StronglySorted larger_first (insert_by_area c l).
Proof.
  induction 1 as [ | d rest Hs IH Hall]; cbn [insert_by_area].
  - repeat constructor.
  - destruct (Rltb (contourArea d) (contourArea c)) eqn:Hlt.
    + apply Rltb_true in Hlt. constructor; [ constructor; assumption | ].
      constructor; [ unfold larger_first; lra | ].
      rewrite Forall_forall in Hall |- *. intros x Hx.
      specialize (Hall x Hx). unfold larger_first in *. lra.
    + apply Rltb_false in Hlt. constructor; [ assumption | ].
      rewrite Forall_forall in Hall |- *. intros x Hx.
      apply In_insert_by_area in Hx. destruct Hx as [-> | Hx];
        [ exact Hlt | apply Hall; assumption ].
Qed.

Lemma sorted_by_area_sorted (l : list contour) :
  StronglySorted larger_first (sorted_by_area l).
Proof.
  unfold sorted_by_area.
  assert (H : forall acc, StronglySorted larger_first acc ->
              StronglySorted larger_first
                (fold_left (fun acc c => insert_by_area c acc) l acc)).
  { induction l as [ | x rest IH]; intros acc Hacc; cbn [fold_left].
    - assumption.
    - apply IH, insert_by_area_sorted, Hacc. }
  apply H. constructor.
Qed.

Lemma insert_by_area_perm (c : contour) (l : list contour) :
  Permutation (c :: l) (insert_by_area c l).
Proof.
  induction l as [ | d rest IH]; cbn [insert_by_area].
  - reflexivity.
  - destruct (Rltb (contourArea d) (contourArea c)); [ reflexivity | ].
    rewrite perm_swap. apply perm_skip. assumption.
Qed.

Lemma sorted_by_area_perm (l : list contour) :
  Permutation l (sorted_by_area l).
Proof.
  unfold sorted_by_area.
  assert (H : forall acc, Permutation (l ++ acc)
                (fold_left (fun acc c => insert_by_area c acc) l acc)).
  { induction l as [ | x rest IH]; intros acc; cbn [fold_left app].
    - reflexivity.
    - rewrite <- IH. rewrite <- insert_by_area_perm.
      apply Permutation_middle. }
  rewrite <- H, app_nil_r. reflexivity.
Qed.

Lemma sorted_after {A : Type} (R : A -> A -> Prop) (pre post : list A) (x : A) :
  StronglySorted R (pre ++ x :: post) -> Forall (R x) post.
Proof.
  induction pre as [ | y pre IH]; cbn [app]; intros H.
  - apply StronglySorted_inv in H. apply H.
  - apply StronglySorted_inv in H. apply IH, H.
Qed.

Lemma filter_length_perm {A : Type} (f : A -> bool) (l l' : list A) :
  Permutation l l' -> length (filter f l) = length (filter f l').
Proof.
  induction 1 as [ | x l l' _ IH | x y l | l l' l'' _ IH1 _ IH2]; cbn [filter].
  - reflexivity.
  - destruct (f x); cbn [length]; congruence.
  - destruct (f x), (f y); reflexivity.
  - congruence.
Qed.

Lemma filter_none {A : Type} (f : A -> bool) (l : list A) :
  Forall (fun x => f x = false) l -> filter f l = [].
Proof.
  induction 1 as [ | x l Hx _ IH]; cbn [filter]; [ reflexivity | ].
  rewrite Hx. assumption.
Qed.

Lemma filter_length_le {A : Type} (f : A -> bool) (l : list A) :
  (length (filter f l) <= length l)%nat.
Proof.
  induction l as [ | x l IH]; cbn [filter length]; [ lia | ].
  destruct (f x); cbn [length]; lia.
Qed.

Section SelectorOrder.

Context {lib : ImagingLib}.

(** X8: the quadrilateral the Contour Selector returns comes from the
    largest extracted contour that yields one: every strictly larger
    contour was tried and gave nothing, and fewer than 15 of the extracted
    contours are strictly larger. *)
Theorem find_best_contour_largest_first (edged : image) (img_shape : Z * Z)
  (ratio : R) (q : list point) :
  _find_best_contour edged img_shape ratio = Ok (Some q) ->
  let img_area := (fst img_shape * snd img_shape)%Z in
  exists contours c,
    findContours edged = Ok contours /\ In c contours
    /\ try_contour img_area ratio c = Ok (Some q)
    /\ (forall d, In d contours -> contourArea c < contourArea d ->
                  try_contour img_area ratio d = Ok None)
    /\ (length (filter (fun d => Rltb (contourArea c) (contourArea d)) contours)
        < 15)%nat.
Proof.
  intros H img_area. unfold _find_best_contour, _find_best_contour_body in H.
  destruct (findContours edged) as [contours | e]; [ | discriminate ].
  cbn [bind] in H. fold img_area in H.
  destruct contours as [ | c0 rest]; [ discriminate | ].
  set (contours := c0 :: rest) in *.
  destruct (for_first _ _) as [[q' | ] | e] eqn:Hloop; cbn [try_except] in H;
    try discriminate.
  injection H as ->.
  apply for_first_split in Hloop.
  destruct Hloop as (pre & c & post & Hsplit & Hc & Hpre).
  pose proof (sorted_by_area_sorted contours) as Hsorted.
  pose proof (sorted_by_area_perm contours) as Hperm.
  rewrite <- (firstn_skipn 15 (sorted_by_area contours)) in Hsorted, Hperm.
  rewrite Hsplit in Hsorted, Hperm. rewrite <- app_assoc in Hsorted, Hperm.
  cbn [app] in Hsorted, Hperm.
  set (tail := post ++ skipn 15 (sorted_by_area contours)) in *.
  pose proof (sorted_after _ _ _ _ Hsorted) as Hafter.
  rewrite Forall_forall in Hafter, Hpre. unfold larger_first in Hafter.
  assert (Hlen : (length pre < 15)%nat).
  { pose proof (firstn_le_length 15 (sorted_by_area contours)) as Hle.
    rewrite Hsplit, length_app in Hle. cbn [length] in Hle. lia. }
  exists contours, c. split; [ reflexivity | ].
  split.
  { apply (Permutation_in _ (Permutation_sym Hperm)).
    apply in_or_app. right. left. reflexivity. }
  split; [ assumption | split ].
  - intros d Hd Hlt. apply (Permutation_in _ Hperm) in Hd.
    apply in_app_or in Hd. destruct Hd as [Hd | [<- | Hd]].
    + apply Hpre. assumption.
    + lra.
    + specialize (Hafter d Hd). lra.
  - rewrite (filter_length_perm _ _ _ Hperm), filter_app.
    rewrite (filter_none _ (c :: tail)).
    + rewrite app_nil_r. pose proof (filter_length_le
        (fun d => Rltb (contourArea c) (contourArea d)) pre). lia.
    + apply Forall_forall. intros d [<- | Hd]; apply Rltb_false.
      * lra.
      * apply Hafter. assumption.
Qed.

(** A selector that returns a quadrilateral only returns valid ones. *)
Lemma find_best_contour_valid (edged : image) (img_shape : Z * Z) (ratio : R)
  (q : list point) :
  _find_best_contour edged img_shape ratio = Ok (Some q) ->
  _is_valid_quadrilateral q = true.
Proof.
  unfold _find_best_contour, _find_best_contour_body.
  destruct (findContours edged) as [contours | e]; [ | discriminate ].
  cbn [bind]. destruct contours as [ | c0 rest]; [ discriminate | ].
  destruct (for_first _ _) as [[q' | ] | e] eqn:Hloop; cbn [try_except];
    try discriminate.
  intros H. injection H as ->.
  apply for_first_found in Hloop. destruct Hloop as (c & _ & Hfound).
  apply try_contour_found in Hfound.
  destruct Hfound as (_ & eps & approx & _ & _ & _ & _ & Hvalid). assumption.
Qed.

End SelectorOrder.

(** The card is the only contour: nothing is larger. *)
Lemma find_best_contour_largest_first_witness :
  exists contours c,
    @findContours (synthetic clean_sheet) 0%nat = Ok contours /\ In c contours
    /\ @try_contour (synthetic clean_sheet) (800 * 1000) 1 c
       = Ok (Some (scale 1 card))
    /\ (forall d, In d contours -> contourArea c < contourArea d ->
                  @try_contour (synthetic clean_sheet) (800 * 1000) 1 d = Ok None)
    /\ (length (filter (fun d => Rltb (contourArea c) (contourArea d)) contours)
        < 15)%nat.
Proof.
  apply (@find_best_contour_largest_first (synthetic clean_sheet) 0%nat
           (800, 1000)%Z 1 (scale 1 card)).
  apply selector_clean_sheet. reflexivity.
Defined.

(** ** The Scanner and [process] *)

Ltac bind_inv H :=
  repeat match type of H with
    | bind ?c _ = _ =>
        let E := fresh "E" in
        destruct c eqn:E; cbn [bind] in H; [ | discriminate H ]
    end.

Lemma validate_corners_wrong_count (corners : list point) (img_shape : Z * Z) :
  length corners <> 4%nat -> _validate_corners corners img_shape = false.
Proof.
  intros Hlen. unfold _validate_corners, _validate_corners_body.
  apply Nat.eqb_neq in Hlen. rewrite Hlen. reflexivity.
Qed.

Lemma validate_corners_accepts (corners : list point) (height width : Z) :
  _validate_corners corners (height, width) = true ->
  length corners = 4%nat
  /\ (forall p, In p corners -> ~ beyond_margin height width p)
  /\ area_in_range (height, width) corners
  /\ (0 < height * width)%Z.
Proof.
  intros H.
  destruct (Nat.eq_dec (length corners) 4) as [Hlen | Hlen].
  2:{ rewrite validate_corners_wrong_count in H by assumption. discriminate. }
  destruct (Z.eq_dec (height * width) 0) as [Hz | Hnz].
  { rewrite validate_corners_zero_area in H by assumption. discriminate. }
  destruct corners as [ | p0 [ | p1 [ | p2 [ | p3 [ | ? ?]]]]]; try discriminate.
  rewrite validate_corners_four in H by assumption.
  apply negb_true_iff in H. apply orb_false_iff in H. destruct H as [H Hhi].
  apply orb_false_iff in H. destruct H as [Hout Hlo].
  apply Rltb_false in Hlo, Hhi.
  set (pts := [p0; p1; p2; p3]) in *.
  pose proof (contourArea_nonneg pts) as Hpos.
  assert (Hr : IZR (height * width) <> 0)
    by (intros E; apply eq_IZR in E; contradiction).
  assert (Hgt : 0 < IZR (height * width)).
  { destruct (Rlt_dec 0 (IZR (height * width))) as [ | N]; [ assumption | ].
    exfalso. assert (Hneg : IZR (height * width) < 0) by lra.
    assert (contourArea pts / IZR (height * width) <= 0).
    { unfold Rdiv.
      assert (/ IZR (height * width) < 0) by (apply Rinv_lt_0_compat; assumption).
      nra. }
    lra. }
  split; [ reflexivity | split; [ | split ] ].
  - intros p Hp Hbeyond. apply out_of_bounds_true in Hbeyond.
    assert (existsb (out_of_bounds height width) pts = true)
      by (apply existsb_exists; exists p; split; assumption).
    congruence.
  - unfold area_in_range. cbn [fst snd].
    set (a := IZR (height * width)) in *.
    assert (Ha : contourArea pts = contourArea pts / a * a) by (field; assumption).
    split; nra.
  - apply lt_IZR. assumption.
Qed.


Section ScannerProperties.

Context {lib : ImagingLib}.

Local Open Scope result_scope.

Lemma strategy_edge_detection_valid (img : image) (q : list point) :
  _strategy_edge_detection img = Ok (Some q) ->
  _is_valid_quadrilateral q = true.
Proof.
  unfold _strategy_edge_detection. destruct (shape img) as [height width].
  intros H. bind_inv H.
  apply for_first_found in H. destruct H as (pre & _ & H). cbv beta in H.
  apply for_first_found in H. destruct H as ([low high] & _ & H).
  cbv beta iota in H. bind_inv H.
  eapply find_best_contour_valid. eassumption.
Qed.

Lemma strategy_adaptive_threshold_valid (img : image) (q : list point) :
  _strategy_adaptive_threshold img = Ok (Some q) ->
  _is_valid_quadrilateral q = true.
Proof.
  unfold _strategy_adaptive_threshold. destruct (shape img) as [height width].
  intros H. bind_inv H.
  apply for_first_found in H. destruct H as (thresh & _ & H). cbv beta in H.
  bind_inv H. eapply find_best_contour_valid. eassumption.
Qed.

Lemma strategy_color_segmentation_valid (img : image) (q : list point) :
  _strategy_color_segmentation img = Ok (Some q) ->
  _is_valid_quadrilateral q = true.
Proof.
  unfold _strategy_color_segmentation. destruct (shape img) as [height width].
  intros H. bind_inv H. eapply find_best_contour_valid. eassumption.
Qed.

Lemma strategy_morphological_valid (img : image) (q : list point) :
  _strategy_morphological img = Ok (Some q) ->
  _is_valid_quadrilateral q = true.
Proof.
  unfold _strategy_morphological. destruct (shape img) as [height width].
  intros H. bind_inv H. eapply find_best_contour_valid. eassumption.
Qed.

Lemma scanner_valid (img : image) (q : list point) :
  _find_document_corners_multi_strategy img = Ok (Some q) ->
  _is_valid_quadrilateral q = true.
Proof.
  unfold _find_document_corners_multi_strategy.
  destruct (_strategy_edge_detection img) as [[c | ] | e] eqn:E1; cbn [bind];
    [ intros H; injection H as <-;
      apply (strategy_edge_detection_valid img); assumption | | discriminate ].
  destruct (_strategy_adaptive_threshold img) as [[c | ] | e] eqn:E2; cbn [bind];
    [ intros H; injection H as <-;
      apply (strategy_adaptive_threshold_valid img); assumption | | discriminate ].
  destruct (_strategy_color_segmentation img) as [[c | ] | e] eqn:E3; cbn [bind];
    [ intros H; injection H as <-;
      apply (strategy_color_segmentation_valid img); assumption | | discriminate ].
  destruct (_strategy_morphological img) as [[c | ] | e] eqn:E4; cbn [bind];
    [ intros H; injection H as <-;
      apply (strategy_morphological_valid img); assumption
    | discriminate | discriminate ].
Qed.

Lemma plain_decode_flag (image_bytes : list Init.Byte.byte) (out : image) :
  plain_decode image_bytes <> Ok (out, true).
Proof.
  unfold plain_decode. destruct (pil_open_rgb image_bytes); cbn [bind];
    intros H; discriminate H || (injection H; discriminate).
Qed.

Lemma fallback_flag (img out : image) : fallback img <> Ok (out, true).
Proof.
  unfold fallback.
  destruct (_enhance_quality_aggressive img) as [en | ]; cbn [bind];
    [ | discriminate ].
  destruct (cvtColor en COLOR_BGR2RGB) as [rgb | ]; cbn [bind]; [ | discriminate ].
  destruct (fromarray rgb); cbn [bind];
    intros H; discriminate H || (injection H; discriminate).
Qed.

Lemma process_true_located (image_bytes : list Init.Byte.byte)
  (img out : image) :
  imdecode image_bytes = Ok (Some img) ->
  process image_bytes = Ok (out, true) ->
  exists corners, located img corners.
Proof.
  intros Hdec. unfold process, process_body. rewrite Hdec. cbn [bind].
  fold (plain_decode image_bytes).
  destruct (_find_document_corners_multi_strategy img) as [[corners | ] | e]
    eqn:Hscan; cbn [bind].
  - destruct (_validate_corners corners (shape img)) eqn:Hvalid.
    + intros _. exists corners. split; assumption.
    + case_eq (fallback img); [ intros r Hr | intros e Hr ]; cbn [try_except];
        intros H.
      * injection H as ->. apply fallback_flag in Hr. contradiction.
      * apply plain_decode_flag in H. contradiction.
  - case_eq (fallback img); [ intros r Hr | intros e Hr ]; cbn [try_except];
      intros H.
    + injection H as ->. apply fallback_flag in Hr. contradiction.
    + apply plain_decode_flag in H. contradiction.
  - cbn [try_except]. intros H. apply plain_decode_flag in H. contradiction.
Qed.

(** X9: when [process] answers [transformed = true], the corners it
    rectified passed both validators: they are four points, the angle at
    every vertex lies strictly between 20 and 160 degrees, no corner lies
    more than 50 outside the frame, and their area is between 5% and 98%
    of the area of the original frame. *)
Theorem rectified_corners_sound (image_bytes : list Init.Byte.byte)
  (img out : image) :
  imdecode image_bytes = Ok (Some img) ->
  process image_bytes = Ok (out, true) ->
  exists corners,
    _find_document_corners_multi_strategy img = Ok (Some corners)
    /\ length corners = 4%nat
    /\ angles_in_range corners
    /\ (forall p, In p corners ->
                  ~ beyond_margin (fst (shape img)) (snd (shape img)) p)
    /\ area_in_range (shape img) corners.
Proof.
  intros Hdec Hproc.
  destruct (process_true_located _ _ _ Hdec Hproc) as (corners & Hscan & Hvalid).
  exists corners. split; [ assumption | ].
  apply scanner_valid in Hscan. apply valid_quadrilateral_angles in Hscan.
  destruct (shape img) as [height width].
  apply validate_corners_accepts in Hvalid.
  destruct Hvalid as (_ & Hmargin & Harea & _).
  destruct Hscan as [Hlen Hangles]. auto.
Qed.

(** X10: bytes that OpenCV cannot decode, whether [cv2.imdecode] answers
    [None] or raises, are handed to Pillow: [process] answers with the
    Pillow image and [transformed = false], or raises what Pillow
    raises. *)
Theorem process_undecodable (image_bytes : list Init.Byte.byte) :
  imdecode image_bytes = Ok None \/ (exists e, imdecode image_bytes = Raise e) ->
  process image_bytes = plain_decode image_bytes.
Proof.
  unfold process, process_body, plain_decode.
  intros [H | [e H]]; rewrite H; reflexivity.
Qed.


End ScannerProperties.

Lemma process_clean_sheet_true :
  exists out, @process (synthetic clean_sheet) png_magic = Ok (out, true).
Proof.
  unfold process, process_body.
  cbn [imdecode synthetic png_magic bind].
  rewrite scanner_clean_sheet. cbn [bind].
  change (@shape (synthetic clean_sheet) 0%nat) with (800, 1000)%Z.
  rewrite validate_clean_sheet.
  destruct (@transform_perspective_total (synthetic clean_sheet) 0%nat
              (scale (800 / 800) card)) as [rectified ->].
  cbn [bind].
  destruct (@enhance_total (synthetic clean_sheet) Standard rectified)
    as [enhanced He].
  cbn [enhance] in He. rewrite He.
  cbn [bind cvtColor fromarray synthetic fresh try_except].
  eexists. reflexivity.
Qed.

(** The card of [clean_sheet], rectified. *)
Lemma rectified_corners_sound_witness :
  exists corners,
    @_find_document_corners_multi_strategy (synthetic clean_sheet) 0%nat
    = Ok (Some corners)
    /\ length corners = 4%nat
    /\ angles_in_range corners
    /\ (forall p, In p corners -> ~ beyond_margin 800 1000 p)
    /\ area_in_range (800, 1000)%Z corners.
Proof.
  destruct process_clean_sheet_true as [out H].
  exact (@rectified_corners_sound (synthetic clean_sheet) png_magic 0%nat out
           eq_refl H).
Defined.

(** The empty buffer: OpenCV answers [None]. *)
Lemma process_undecodable_witness :
  @process (synthetic clean_sheet) [] = @plain_decode (synthetic clean_sheet) [].
Proof. apply process_undecodable. left. reflexivity. Defined.


(** ** The Enhancers and the Rectifier: what they can return *)

Section StageResults.

Context {lib : ImagingLib}.

(** X12: an enhancer returns either the buffer it was called with or the
    result of the whole chain, every stage of which succeeded; a partly
    enhanced buffer is never returned. *)
Theorem enhance_all_or_nothing (v : variant) (img out : image) :
  enhance v img = Ok out ->
  out = img
  \/ exists contrasted sharpened brightened arr,
       stage_input v Sharpness img = Ok contrasted
       /\ run_tone_stage v Sharpness contrasted = Ok sharpened
       /\ run_tone_stage v Brightness sharpened = Ok brightened
       /\ np_array brightened = Ok arr
       /\ cvtColor arr COLOR_RGB2BGR = Ok out.
Proof.
  rewrite enhance_staged_eq. unfold enhance_staged.
  cbn [stage_input].
  destruct (before_tone v img) as [p0 | e]; cbn [bind try_except];
    [ | intros H; injection H as <-; left; reflexivity ].
  destruct (run_tone_stage v Contrast p0) as [p1 | e] eqn:E1;
    cbn [bind try_except];
    [ | intros H; injection H as <-; left; reflexivity ].
  destruct (run_tone_stage v Sharpness p1) as [p2 | e] eqn:E2;
    cbn [bind try_except];
    [ | intros H; injection H as <-; left; reflexivity ].
  destruct (run_tone_stage v Brightness p2) as [p3 | e] eqn:E3;
    cbn [bind try_except];
    [ | intros H; injection H as <-; left; reflexivity ].
  destruct (np_array p3) as [arr | e] eqn:E4; cbn [bind try_except];
    [ | intros H; injection H as <-; left; reflexivity ].
  destruct (cvtColor arr COLOR_RGB2BGR) as [res | e] eqn:E5;
    cbn [try_except]; intros H; injection H as <-.
  - right. exists p1, p2, p3, arr. auto.
  - left. reflexivity.
Qed.

(** X13: the Rectifier returns the frame it was given when the corner
    array does not have four points, when the homography cannot be built
    and when the warp raises. *)
Theorem rectifier_fallbacks (img : image) (corners : list point) :
  (length corners <> 4%nat -> _transform_perspective img corners = Ok img)
  /\ (forall rect size,
         _order_corners corners = Ok rect ->
         rectifier_size corners = Ok size ->
         (exists e, getPerspectiveTransform rect (dst_rect size) = Raise e)
         \/ (exists M e,
                getPerspectiveTransform rect (dst_rect size) = Ok M
                /\ warpPerspective img M size = Raise e) ->
         _transform_perspective img corners = Ok img).
Proof.
  split.
  - intros Hlen. unfold _transform_perspective, _order_corners.
    apply Nat.eqb_neq in Hlen. rewrite Hlen. reflexivity.
  - intros rect size Hrect Hsize Hfault.
    unfold _transform_perspective. unfold rectifier_size in Hsize.
    rewrite Hrect in *. cbn [bind] in *.
    destruct rect as [ | tl [ | tr [ | br [ | bl [ | ? ?]]]]]; try reflexivity.
    injection Hsize as <-.
    destruct Hfault as [[e He] | (M & e & HM & He)].
    + rewrite He. reflexivity.
    + rewrite HM. cbn [bind]. rewrite He. reflexivity.
Qed.

End StageResults.

(** The standard enhancer on the synthetic library: the whole chain. *)
Lemma enhance_all_or_nothing_witness :
  12%nat = 0%nat
  \/ exists contrasted sharpened brightened arr,
       @stage_input (synthetic clean_sheet) Standard Sharpness 0%nat
       = Ok contrasted
       /\ @run_tone_stage (synthetic clean_sheet) Standard Sharpness contrasted
          = Ok sharpened
       /\ @run_tone_stage (synthetic clean_sheet) Standard Brightness sharpened
          = Ok brightened
       /\ @np_array (synthetic clean_sheet) brightened = Ok arr
       /\ @cvtColor (synthetic clean_sheet) arr COLOR_RGB2BGR = Ok 12%nat.
Proof.
  apply (@enhance_all_or_nothing (synthetic clean_sheet) Standard 0%nat 12%nat).
  reflexivity.
Defined.

(** Three points instead of four. *)
Lemma rectifier_fallbacks_witness :
  @_transform_perspective (synthetic clean_sheet) 0%nat
    [(0, 0); (300, 0); (300, 400)] = Ok 0%nat.
Proof.
  apply (proj1 (@rectifier_fallbacks (synthetic clean_sheet) 0%nat
                  [(0, 0); (300, 0); (300, 400)])).
  cbn [length]. lia.
Defined.

(** The card through the Rectifier of the synthetic library. *)
Lemma transform_perspective_result_witness :
  exists out,
    out = 0%nat
    \/ exists rect size M,
         _order_corners card = Ok rect
         /\ rectifier_size card = Ok size
         /\ (100 <= fst size)%Z /\ (100 <= snd size)%Z
         /\ @getPerspectiveTransform (synthetic clean_sheet) rect (dst_rect size)
            = Ok M
         /\ @warpPerspective (synthetic clean_sheet) 0%nat M size = Ok out.
Proof.
  destruct (@transform_perspective_total (synthetic clean_sheet) 0%nat card)
    as [out H].
  exists out.
  exact (@transform_perspective_result (synthetic clean_sheet) 0%nat out
           (100, 100) (100, 700) (900, 700) (900, 100) H).
Defined.

(** ** The document assembler *)

Section PdfBuilderProperties.

Context {pdf : PdfLib}.

Lemma draw_page_ops (idx : nat) (img_path : string) (ops : list canvas_op) :
  draw_page idx img_path = Ok ops ->
  exists x y w h,
    ops = [ DrawImage img_path x y w h;
            DrawString 30 30 ("Page " ++ py_str idx)%string;
            ShowPage ].
Proof.
  unfold draw_page. destruct A4 as [page_width page_height].
  destruct (image_size img_path) as [[iw ih] | ]; cbn [bind]; [ | discriminate ].
  destruct (py_div page_width (IZR iw)); cbn [bind]; [ | discriminate ].
  destruct (py_div page_height (IZR ih)); cbn [bind]; [ | discriminate ].
  destruct (drawImage_fault img_path); cbn [bind]; [ | discriminate ].
  intros H. injection H as <-. eauto.
Qed.


Lemma draw_pages_texts (images : list string) :
  forall c idx,
    drawn_texts (draw_pages c idx images)
    = drawn_texts c
      ++ map (fun ip => ("Page " ++ py_str (fst ip))%string) (placed idx images).
Proof.
  induction images as [ | path rest IH]; intros c idx; cbn [draw_pages placed map].
  - rewrite app_nil_r. reflexivity.
  - destruct (draw_page idx path) as [ops | e] eqn:E.
    + destruct (draw_page_ops _ _ _ E) as (x & y & w & h & ->).
      rewrite IH. unfold drawn_texts. rewrite flat_map_app.
      cbn [flat_map map fst app]. rewrite <- app_assoc. reflexivity.
    + apply IH.
Qed.

Lemma draw_pages_images (images : list string) :
  forall c idx,
    drawn_images (draw_pages c idx images)
    = drawn_images c ++ map snd (placed idx images).
Proof.
  induction images as [ | path rest IH]; intros c idx; cbn [draw_pages placed map].
  - rewrite app_nil_r. reflexivity.
  - destruct (draw_page idx path) as [ops | e] eqn:E.
    + destruct (draw_page_ops _ _ _ E) as (x & y & w & h & ->).
      rewrite IH. unfold drawn_images. rewrite flat_map_app.
      cbn [flat_map map snd app]. rewrite <- app_assoc. reflexivity.
    + apply IH.
Qed.

Lemma draw_pages_count (images : list string) :
  forall c idx,
    page_count (draw_pages c idx images)
    = (page_count c + length (placed idx images))%nat.
Proof.
  induction images as [ | path rest IH]; intros c idx;
    cbn [draw_pages placed length].
  - lia.
  - destruct (draw_page idx path) as [ops | e] eqn:E.
    + destruct (draw_page_ops _ _ _ E) as (x & y & w & h & ->).
      rewrite IH. unfold page_count. rewrite filter_app, length_app.
      cbn [filter length]. lia.
    + apply IH.
Qed.

(** X15: whatever the images, [create_pdf] returns as soon as saving
    works: an image that cannot be placed is skipped.  The document has one
    page per image that can be placed, in the order of the list, and the
    text on a page is the position of its image in the list, counted from
    1 over all the images, skipped ones included. *)
Theorem create_pdf_pages (images : list string) (output_path : string) :
  save_fault output_path = Ok tt ->
  exists c,
    create_pdf images output_path = Ok c
    /\ page_count c = length (placed 1 images)
    /\ drawn_images c = map snd (placed 1 images)
    /\ drawn_texts c
       = map (fun ip => ("Page " ++ py_str (fst ip))%string) (placed 1 images).
Proof.
  intros Hsave. unfold create_pdf. rewrite Hsave. cbn [bind].
  eexists. split; [ reflexivity | ].
  split; [ | split ].
  - unfold page_count. rewrite filter_app, length_app.
    fold (page_count (draw_pages
      [SetTitle "Generated Document"; SetAuthor "WhatsApp PDF Bot";
       SetSubject ("Document generated on " ++ now_text)] 1 images)).
    rewrite draw_pages_count. cbn. lia.
  - unfold drawn_images. rewrite flat_map_app.
    fold (drawn_images (draw_pages
      [SetTitle "Generated Document"; SetAuthor "WhatsApp PDF Bot";
       SetSubject ("Document generated on " ++ now_text)] 1 images)).
    rewrite draw_pages_images. cbn [flat_map drawn_images app].
    rewrite app_nil_r. reflexivity.
  - unfold drawn_texts. rewrite flat_map_app.
    fold (drawn_texts (draw_pages
      [SetTitle "Generated Document"; SetAuthor "WhatsApp PDF Bot";
       SetSubject ("Document generated on " ++ now_text)] 1 images)).
    rewrite draw_pages_texts. cbn [flat_map drawn_texts app].
    rewrite app_nil_r. reflexivity.
Qed.

End PdfBuilderProperties.

Section PdfBuilderRuns.

Context {pdf : PdfLib}.

Lemma draw_page_unreadable (idx : nat) (img_path : string) (e : exn) :
  image_size img_path = Raise e -> draw_page idx img_path = Raise e.
Proof.
  intros H. unfold draw_page. destruct A4 as [page_width page_height].
  rewrite H. reflexivity.
Qed.

Lemma draw_page_placed (idx : nat) (img_path : string) (iw ih : Z) :
  image_size img_path = Ok (iw, ih) -> (0 < iw)%Z -> (0 < ih)%Z ->
  drawImage_fault img_path = Ok tt ->
  exists ops, draw_page idx img_path = Ok ops.
Proof.
  intros Hsize Hiw Hih Hdraw. unfold draw_page.
  destruct A4 as [page_width page_height]. rewrite Hsize. cbn [bind].
  apply IZR_lt in Hiw, Hih. unfold py_div.
  destruct (Req_dec_T (IZR iw) 0) as [E | _]; [ lra | ].
  destruct (Req_dec_T (IZR ih) 0) as [E | _]; [ lra | ].
  cbn [bind]. rewrite Hdraw. cbn [bind]. eauto.
Qed.

End PdfBuilderRuns.

Lemma placed_three_files :
  @placed three_files 1 ["photo.png"; "notes.txt"; "scan.png"]%string
  = [(1%nat, "photo.png"%string); (3%nat, "scan.png"%string)].
Proof.
  cbn [placed].
  destruct (@draw_page_placed three_files 1 "photo.png" 4000 3000)
    as [ops1 ->]; try reflexivity.
  rewrite (@draw_page_unreadable three_files 2 "notes.txt" (LibraryError 2))
    by reflexivity.
  destruct (@draw_page_placed three_files 3 "scan.png" 1000 2000)
    as [ops3 ->]; try reflexivity.
Qed.


(** Three files, the second of which is not an image: two pages, the
    second of them labelled with a 3. *)
Lemma create_pdf_pages_witness :
  exists c,
    @create_pdf three_files ["photo.png"; "notes.txt"; "scan.png"]%string
      "output.pdf" = Ok c
    /\ page_count c = 2%nat
    /\ drawn_images c = ["photo.png"; "scan.png"]%string
    /\ drawn_texts c = ["Page 1"; "Page 3"]%string.
Proof.
  destruct (@create_pdf_pages three_files
              ["photo.png"; "notes.txt"; "scan.png"]%string "output.pdf" eq_refl)
    as (c & H & Hcount & Himages & Htexts).
  rewrite placed_three_files in Hcount, Himages, Htexts.
  exists c. auto.
Defined.

(** ** The request handler *)

Lemma lookup_unlink_same (d : directory) (name : string) :
  lookup (unlink d name) name = None.
Proof.
  induction d as [ | [n c] rest IH]; cbn [unlink filter fst lookup]; [ reflexivity | ].
  destruct (String.eqb n name) eqn:E; cbn [negb]; [ exact IH | ].
  cbn [lookup]. rewrite E. exact IH.
Qed.

Lemma lookup_unlink_other (d : directory) (name other : string) :
  name <> other -> lookup (unlink d name) other = lookup d other.
Proof.
  intros Hne.
  induction d as [ | [n c] rest IH]; cbn [unlink filter fst lookup]; [ reflexivity | ].
  destruct (String.eqb n name) eqn:E; cbn [negb].
  - apply String.eqb_eq in E. subst n.
    apply String.eqb_neq in Hne. rewrite Hne. exact IH.
  - cbn [lookup]. destruct (String.eqb n other); [ reflexivity | exact IH ].
Qed.

Lemma lookup_write_same (d : directory) (name : string)
  (content : list Init.Byte.byte) :
  lookup (write_file d name content) name = Some content.
Proof. unfold write_file. cbn [lookup]. rewrite String.eqb_refl. reflexivity. Qed.

Lemma lookup_write_other (d : directory) (name other : string)
  (content : list Init.Byte.byte) :
  name <> other -> lookup (write_file d name content) other = lookup d other.
Proof.
  intros Hne. unfold write_file. cbn [lookup].
  pose proof Hne as Hne'. apply String.eqb_neq in Hne'. rewrite Hne'.
  apply lookup_unlink_other. assumption.
Qed.

Lemma lookup_cleanup_other (files : list string) :
  forall (d : directory) (name : string),
    ~ In name files -> lookup (cleanup d files) name = lookup d name.
Proof.
  unfold cleanup.
  induction files as [ | f rest IH]; intros d name Hnot; cbn [fold_left];
    [ reflexivity | ].
  rewrite IH by (intros H; apply Hnot; right; assumption).
  destruct (file_exists d f); [ | reflexivity ].
  apply lookup_unlink_other. intros ->. apply Hnot. left. reflexivity.
Qed.

Lemma lookup_cleanup_removed (files : list string) :
  forall (d : directory) (name : string),
    In name files -> lookup (cleanup d files) name = None.
Proof.
  unfold cleanup.
  induction files as [ | f rest IH]; intros d name Hin; cbn [fold_left];
    [ contradiction | ].
  destruct (in_dec string_dec name rest) as [Hrest | Hrest].
  - apply IH. assumption.
  - fold (cleanup (if file_exists d f then unlink d f else d) rest).
    rewrite lookup_cleanup_other by assumption.
    destruct Hin as [-> | Hin]; [ | contradiction ].
    unfold file_exists. destruct (lookup d name) eqn:E.
    + apply lookup_unlink_same.
    + assumption.
Qed.

Lemma lookup_In (d : directory) (name : string) :
  In name (map fst d) <-> lookup d name <> None.
Proof.
  induction d as [ | [n c] rest IH]; cbn [map fst In lookup].
  - split; [ contradiction | congruence ].
  - destruct (String.eqb n name) eqn:E.
    + apply String.eqb_eq in E. split; [ discriminate | auto ].
    + apply String.eqb_neq in E. rewrite <- IH. tauto.
Qed.

Lemma In_insert_name (name x : string) (l : list string) :
  In x (insert_name name l) <-> x = name \/ In x l.
Proof.
  induction l as [ | n rest IH]; cbn [insert_name In].
  - intuition congruence.
  - destruct (String.leb name n); cbn [In]; [ | rewrite IH ]; intuition congruence.
Qed.

Lemma In_sorted_names (x : string) (l : list string) :
  In x (sorted_names l) <-> In x l.
Proof.
  unfold sorted_names.
  induction l as [ | n rest IH]; cbn [fold_right In]; [ tauto | ].
  rewrite In_insert_name, IH. intuition congruence.
Qed.

Lemma length_insert_name (name : string) (l : list string) :
  length (insert_name name l) = S (length l).
Proof.
  induction l as [ | n rest IH]; cbn [insert_name length]; [ reflexivity | ].
  destruct (String.leb name n); cbn [length]; congruence.
Qed.

Lemma length_sorted_names (l : list string) :
  length (sorted_names l) = length l.
Proof.
  unfold sorted_names.
  induction l as [ | n rest IH]; cbn [fold_right length]; [ reflexivity | ].
  rewrite length_insert_name. congruence.
Qed.

Lemma In_globbed (d : directory) (name : string) :
  In name (globbed d) <-> lookup d name <> None /\ is_image_name name = true.
Proof.
  unfold globbed, glob_img, is_image_name.
  rewrite in_app_iff, !filter_In, <- lookup_In.
  rewrite !andb_true_iff, orb_true_iff. tauto.
Qed.

Lemma image_name_not_processed (f g : string) :
  is_image_name f = true -> f <> processed_name g.
Proof.
  unfold is_image_name, processed_name. intros H ->.
  apply andb_true_iff in H. destruct H as [H _]. cbn in H. discriminate.
Qed.

Section HandlerProperties.

Context {lib : ImagingLib} {worker : WorkerLib}.

Lemma process_files_spec (image_files : list string) :
  forall (d : directory) (paths : list string) (flags : list bool) d' paths' flags',
    (forall f g, In f image_files -> In g image_files -> f <> processed_name g) ->
    process_files d image_files paths flags = Ok (d', paths', flags') ->
    paths' = paths ++ map processed_name image_files
    /\ (forall m, ~ In m (map processed_name image_files) ->
                  lookup d' m = lookup d m)
    /\ exists new,
         flags' = flags ++ new
         /\ Forall2 (fun f b => In f image_files /\ processed_with d f b)
                    image_files new.
Proof.
  induction image_files as [ | f rest IH];
    intros d paths flags d' paths' flags' Hdistinct H; cbn [process_files] in H.
  - injection H as <- <- <-. rewrite !app_nil_r.
    split; [ reflexivity | split; [ reflexivity | ] ].
    exists []. rewrite app_nil_r. split; [ reflexivity | constructor ].
  - unfold read_file in H. destruct (lookup d f) as [contents | ] eqn:Hf;
      [ | discriminate ].
    cbn [bind] in H.
    destruct (process contents) as [[processed b] | ] eqn:Hp; [ | discriminate ].
    cbn [bind] in H.
    destruct (save_png processed) as [png | ]; [ | discriminate ].
    cbn [bind] in H. apply IH in H.
    2:{ intros x y Hx Hy. apply Hdistinct; right; assumption. }
    destruct H as (-> & Hkeep & new & -> & Hall).
    assert (Hback : forall m, m <> processed_name f ->
              lookup (write_file d (processed_name f) png) m = lookup d m).
    { intros m Hm. apply lookup_write_other. congruence. }
    split; [ cbn [map]; rewrite <- app_assoc; reflexivity | split ].
    + intros m Hm. cbn [map In] in Hm.
      rewrite Hkeep by tauto. apply Hback. intros ->. tauto.
    + exists (b :: new). split; [ rewrite <- app_assoc; reflexivity | ].
      constructor.
      * split; [ left; reflexivity | ]. exists contents, processed. auto.
      * eapply Forall2_impl; [ | exact Hall ].
        intros g c (Hg & contents' & out & Hlook & Hproc).
        split; [ right; assumption | ].
        exists contents', out. split; [ | assumption ].
        rewrite <- Hlook. symmetry. apply Hback.
        apply Hdistinct; [ right; assumption | left; reflexivity ].
Qed.

Lemma process_files_fault (image_files : list string) :
  forall (d : directory) (paths : list string) (flags : list bool)
         (f : string) (contents : list Init.Byte.byte) (e : exn),
    (forall f g, In f image_files -> In g image_files -> f <> processed_name g) ->
    In f image_files -> lookup d f = Some contents ->
    process contents = Raise e ->
    exists e', process_files d image_files paths flags = Raise e'.
Proof.
  induction image_files as [ | g rest IH];
    intros d paths flags f contents e Hdistinct Hin Hf Hp; [ contradiction | ].
  cbn [process_files]. unfold read_file.
  destruct (string_dec g f) as [-> | Hne].
  - rewrite Hf. cbn [bind]. rewrite Hp. cbn [bind]. eauto.
  - destruct Hin as [-> | Hin]; [ contradiction | ].
    destruct (lookup d g) as [cg | ]; cbn [bind]; [ | eauto ].
    destruct (process cg) as [[processed b] | ]; cbn [bind]; [ | eauto ].
    destruct (save_png processed) as [png | ]; cbn [bind]; [ | eauto ].
    apply (IH _ _ _ f contents e); try assumption.
    + intros x y Hx Hy. apply Hdistinct; right; assumption.
    + rewrite lookup_write_other; [ assumption | ].
      intros E. apply (Hdistinct f g); [ right; assumption | left; reflexivity | ].
      congruence.
Qed.

Lemma image_files_distinct (d : directory) (f g : string) :
  In f (sorted_names (globbed d)) -> In g (sorted_names (globbed d)) ->
  f <> processed_name g.
Proof.
  intros Hf _. apply In_sorted_names, In_globbed in Hf.
  apply image_name_not_processed, Hf.
Qed.

End HandlerProperties.

Lemma prefix_processed_name (f : string) :
  String.prefix "processed_" (processed_name f) = true.
Proof. unfold processed_name. cbn. destruct f; reflexivity. Qed.

Lemma Forall2_flag_false {A : Type} (R : A -> bool -> Prop) (xs : list A)
  (flags : list bool) :
  Forall2 R xs flags -> existsb negb flags = true -> exists x, R x false.
Proof.
  induction 1 as [ | x b xs flags Hx _ IH]; cbn [existsb]; [ discriminate | ].
  destruct b; cbn [negb orb]; [ exact IH | eauto ].
Qed.

Lemma Forall2_flags_true {A : Type} (R : A -> bool -> Prop) (xs : list A)
  (flags : list bool) :
  Forall2 R xs flags -> existsb negb flags = false ->
  forall x, In x xs -> R x true.
Proof.
  induction 1 as [ | x b xs flags Hx _ IH]; cbn [existsb]; [ contradiction | ].
  destruct b; cbn [negb orb]; [ | discriminate ].
  intros Hrest y [<- | Hy]; [ assumption | apply IH; assumption ].
Qed.

Section HandlerAnswers.

Context {lib : ImagingLib} {worker : WorkerLib}.

Lemma placed_length (pdf : PdfLib) (images : list string) :
  forall idx, (length (@placed pdf idx images) <= length images)%nat.
Proof.
  induction images as [ | path rest IH]; intros idx; cbn [placed length];
    [ lia | ].
  destruct (draw_page idx path); cbn [length]; specialize (IH (S idx)); lia.
Qed.

(** X16: when [generate_pdf] answers with the demo, some [img_*] file of
    the directory was processed with [transformed = false], and nothing
    was removed or replaced except files named [processed_*]: the source
    images and [READY.txt] are still there and no document was written. *)
Theorem demo_answer (d d' : directory) :
  generate_pdf d = Some (UseDemo, Some d') ->
  (exists f, In f (globbed d) /\ processed_with d f false)
  /\ (forall m, String.prefix "processed_" m = false ->
                lookup d' m = lookup d m)
  /\ lookup d' ready_file <> None.
Proof.
  unfold generate_pdf. fold (globbed d).
  destruct (file_exists d ready_file) eqn:Hready; cbn [negb]; [ | discriminate ].
  destruct (sorted_names (globbed d)) as [ | f0 files] eqn:Hfiles;
    [ discriminate | ].
  rewrite <- Hfiles. clear f0 files Hfiles.
  unfold generate_pdf_body.
  destruct (process_files d (sorted_names (globbed d)) [] [])
    as [[[d1 paths] flags] | ] eqn:Hloop; cbn [bind]; [ | discriminate ].
  apply process_files_spec in Hloop; [ | apply image_files_distinct ].
  destruct Hloop as (-> & Hkeep & new & -> & Hall). cbn [app] in *.
  destruct (existsb negb new) eqn:Hflags.
  2:{ destruct (create_pdf _ _); cbn [bind]; [ | discriminate ].
      destruct (read_file _ _); cbn [bind]; discriminate. }
  intros H. injection H as <-.
  assert (Hother : forall m, String.prefix "processed_" m = false ->
                     lookup d1 m = lookup d m).
  { intros m Hm. apply Hkeep. intros Hin. apply in_map_iff in Hin.
    destruct Hin as (f & <- & _). rewrite prefix_processed_name in Hm.
    discriminate. }
  split; [ | split ].
  - destruct (Forall2_flag_false _ _ _ Hall Hflags) as (f & Hf & Hp).
    exists f. split; [ apply In_sorted_names; assumption | assumption ].
  - assumption.
  - rewrite Hother by reflexivity. unfold file_exists in Hready.
    destruct (lookup d ready_file); [ discriminate | discriminate ].
Qed.

End HandlerAnswers.

Lemma create_pdf_page_count (pdf : PdfLib) (images : list string)
  (output_path : string) (c : list canvas_op) :
  @create_pdf pdf images output_path = Ok c ->
  (page_count c <= length images)%nat.
Proof.
  unfold create_pdf. destruct (save_fault output_path); cbn [bind];
    [ | discriminate ].
  intros H. injection H as <-.
  unfold page_count. rewrite filter_app, length_app. cbn [filter length].
  match goal with |- context [draw_pages ?h 1 images] =>
    fold (page_count (draw_pages h 1 images)) end.
  rewrite draw_pages_count. pose proof (placed_length pdf images 1). cbn. lia.
Qed.

Section HandlerDocument.

Context {lib : ImagingLib} {worker : WorkerLib}.

Lemma output_not_cleaned (d : directory) (files : list string) :
  (forall f, In f files -> In f (globbed d)) ->
  ~ In "output.pdf"%string (files ++ map processed_name files ++ [ready_file]).
Proof.
  intros Hfiles Hin. apply in_app_or in Hin. destruct Hin as [Hin | Hin].
  - apply Hfiles, In_globbed in Hin. destruct Hin as [_ Hin]. discriminate Hin.
  - apply in_app_or in Hin. destruct Hin as [Hin | [Hin | []]].
    + apply in_map_iff in Hin. destruct Hin as (f & Hf & _). discriminate Hf.
    + discriminate Hin.
Qed.

(** X17: when [generate_pdf] answers with a generated document, every
    [img_*] file of the directory was processed with [transformed = true];
    [pageCount] is the number of those files, which the number of pages of
    the document does not exceed; the document is in [output.pdf] and
    [fileSize] is its length; the source images, their [processed_*] files
    and [READY.txt] are gone, and every other file is as it was. *)
Theorem generated_answer (d d' : directory) (pdfPath fileSize : string)
  (pageCount : nat) :
  generate_pdf d = Some (Generated pdfPath pageCount fileSize, Some d') ->
  pdfPath = path_text "output.pdf"
  /\ pageCount = length (globbed d)
  /\ (forall f, In f (globbed d) -> processed_with d f true)
  /\ (exists c,
         lookup d' "output.pdf" = Some (document_bytes c)
         /\ fileSize = (py_str (length (document_bytes c)) ++ " bytes")%string
         /\ (page_count c <= pageCount)%nat)
  /\ lookup d' ready_file = None
  /\ (forall f, In f (globbed d) ->
                lookup d' f = None /\ lookup d' (processed_name f) = None)
  /\ (forall m, m <> "output.pdf"%string -> m <> ready_file ->
                ~ In m (globbed d) ->
                (forall f, In f (globbed d) -> m <> processed_name f) ->
                lookup d' m = lookup d m).
Proof.
  unfold generate_pdf. fold (globbed d).
  destruct (file_exists d ready_file) eqn:Hready; cbn [negb]; [ | discriminate ].
  destruct (sorted_names (globbed d)) as [ | f0 rest] eqn:Hfiles;
    [ discriminate | ].
  rewrite <- Hfiles. clear f0 rest Hfiles.
  set (files := sorted_names (globbed d)).
  assert (Hin : forall f, In f files <-> In f (globbed d))
    by (intros f; apply In_sorted_names).
  unfold generate_pdf_body.
  destruct (process_files d files [] []) as [[[d1 paths] flags] | ] eqn:Hloop;
    cbn [bind]; [ | discriminate ].
  apply process_files_spec in Hloop; [ | apply image_files_distinct ].
  destruct Hloop as (-> & Hkeep & new & -> & Hall). cbn [app] in *.
  destruct (existsb negb new) eqn:Hflags; [ discriminate | ].
  unfold create_pdf. cbn [save_fault pdf_on bind].
  set (c := draw_pages _ 1 (map processed_name files) ++ [Save _]).
  set (cleaned := files ++ map processed_name files ++ [ready_file]).
  assert (Hout : ~ In "output.pdf"%string cleaned)
    by (apply (output_not_cleaned d); intros f; apply Hin).
  unfold read_file. rewrite lookup_cleanup_other by assumption.
  rewrite lookup_write_same. cbn [bind].
  intros H. injection H as <- <- <- <-.
  split; [ reflexivity | ].
  split; [ apply length_sorted_names | ].
  split.
  { intros f Hf. apply Hin in Hf.
    apply (Forall2_flags_true _ _ _ Hall Hflags f Hf). }
  split.
  { exists c. rewrite lookup_cleanup_other by assumption.
    rewrite lookup_write_same. split; [ reflexivity | split; [ reflexivity | ] ].
    assert (Hc : @create_pdf (pdf_on d1) (map processed_name files)
                   (path_text "output.pdf") = Ok c) by reflexivity.
    apply create_pdf_page_count in Hc. rewrite length_map in Hc. exact Hc. }
  split.
  { apply lookup_cleanup_removed. unfold cleaned.
    apply in_or_app. right. apply in_or_app. right. left. reflexivity. }
  split.
  { intros f Hf. apply Hin in Hf. split; apply lookup_cleanup_removed; unfold cleaned.
    - apply in_or_app. left. assumption.
    - apply in_or_app. right. apply in_or_app. left. apply in_map. assumption. }
  intros m Hpdf Hrdy Himg Hproc.
  rewrite lookup_cleanup_other.
  - rewrite lookup_write_other by congruence. apply Hkeep.
    intros Hm. apply in_map_iff in Hm. destruct Hm as (f & <- & Hf).
    apply (Hproc f); [ apply Hin; assumption | reflexivity ].
  - unfold cleaned. intros Hm. apply in_app_or in Hm. destruct Hm as [Hm | Hm].
    + apply Himg, Hin, Hm.
    + apply in_app_or in Hm. destruct Hm as [Hm | [Hm | []]].
      * apply in_map_iff in Hm. destruct Hm as (f & <- & Hf).
        apply (Hproc f); [ apply Hin; assumption | reflexivity ].
      * congruence.
Qed.

(** X18: with [READY.txt] in place, [generate_pdf] raises the 400 answer
    exactly when the directory has no file named [img_*.jpg] or
    [img_*.png]. *)
Theorem no_images_answer (d : directory) :
  generate_pdf d = Some (HTTPException 400, None)
  <-> lookup d ready_file <> None
      /\ forall name, lookup d name <> None -> is_image_name name = false.
Proof.
  unfold generate_pdf. fold (globbed d). unfold file_exists.
  destruct (lookup d ready_file) eqn:Hready; cbn [negb].
  2:{ split; [ discriminate | intros [H _]; contradiction ]. }
  destruct (sorted_names (globbed d)) as [ | f0 rest] eqn:Hfiles.
  - split; [ intros _ | reflexivity ]. split; [ discriminate | ].
    intros name Hname. destruct (is_image_name name) eqn:E; [ | reflexivity ].
    assert (Hin : In name (sorted_names (globbed d)))
      by (apply In_sorted_names, In_globbed; auto).
    rewrite Hfiles in Hin. contradiction.
  - split.
    + destruct (generate_pdf_body d (f0 :: rest)) as [[answer d'] | ];
        intros H; discriminate H.
    + intros [_ Hnone]. exfalso.
      assert (Hin : In f0 (sorted_names (globbed d)))
        by (rewrite Hfiles; left; reflexivity).
      apply In_sorted_names, In_globbed in Hin. destruct Hin as [Hf Himg].
      rewrite (Hnone f0 Hf) in Himg. discriminate.
Qed.

(** X19: one image file that [process] cannot handle (neither decoder
    reads it) makes the whole request fail with the 500 answer, whatever
    the other files are. *)
Theorem undecodable_image_answer (d : directory) (f : string)
  (contents : list Init.Byte.byte) (e : exn) :
  lookup d ready_file <> None ->
  is_image_name f = true -> lookup d f = Some contents ->
  process contents = Raise e ->
  generate_pdf d = Some (HTTPException 500, None).
Proof.
  intros Hready Himg Hf Hp. unfold generate_pdf. fold (globbed d).
  unfold file_exists. destruct (lookup d ready_file); [ | contradiction ].
  cbn [negb].
  assert (Hin : In f (sorted_names (globbed d))).
  { apply In_sorted_names, In_globbed. split; [ congruence | assumption ]. }
  destruct (sorted_names (globbed d)) as [ | f0 rest] eqn:Hfiles;
    [ contradiction | ].
  rewrite <- Hfiles in *. clear f0 rest Hfiles.
  unfold generate_pdf_body.
  destruct (process_files_fault (sorted_names (globbed d)) d [] [] f contents e
              (image_files_distinct d) Hin Hf Hp) as [e' ->].
  reflexivity.
Qed.

End HandlerDocument.

(** ** Runs of the handler *)

Lemma scanner_blank_frame (img : nat) :
  @_find_document_corners_multi_strategy (synthetic blank_frame) img = Ok None.
Proof.
  unfold _find_document_corners_multi_strategy, _strategy_edge_detection,
    _strategy_adaptive_threshold, _strategy_color_segmentation,
    _strategy_morphological.
  cbn [shape synthetic frame_shape blank_frame].
  unfold py_div. destruct (Req_dec_T (800 / 800) 0) as [E | _]; [ lra | ].
  reflexivity.
Qed.

Lemma process_blank_frame :
  exists out, @process (synthetic blank_frame) png_magic = Ok (out, false).
Proof.
  unfold process, process_body. cbn [imdecode synthetic png_magic bind].
  rewrite scanner_blank_frame. cbn [bind].
  eexists. reflexivity.
Qed.

Lemma image_files_one_image : sorted_names (globbed one_image) = ["img_1.png"%string].
Proof. reflexivity. Qed.

Lemma generate_pdf_blank_frame :
  exists d',
    @generate_pdf (synthetic blank_frame) (plain_worker blank_frame) one_image
    = Some (UseDemo, Some d').
Proof.
  destruct process_blank_frame as [out Hout].
  unfold generate_pdf. fold (globbed one_image).
  rewrite image_files_one_image.
  change (file_exists one_image ready_file) with true. cbn [negb].
  unfold generate_pdf_body. cbn [process_files].
  change (read_file one_image "img_1.png") with (Ok (A := list Init.Byte.byte) png_magic).
  cbn [bind]. rewrite Hout. cbn [bind save_png plain_worker app existsb negb orb].
  eexists. reflexivity.
Qed.

(** One image without contours: the demo answer, the image still there. *)
Lemma demo_answer_witness :
  exists d',
    (exists f, In f (globbed one_image)
               /\ @processed_with (synthetic blank_frame) one_image f false)
    /\ (forall m, String.prefix "processed_" m = false ->
                  lookup d' m = lookup one_image m)
    /\ lookup d' ready_file <> None.
Proof.
  destruct generate_pdf_blank_frame as [d' H].
  exists d'.
  exact (@demo_answer (synthetic blank_frame) (plain_worker blank_frame)
           one_image d' H).
Defined.

Lemma generate_pdf_clean_sheet :
  exists pdfPath pageCount fileSize d',
    @generate_pdf (synthetic clean_sheet) (plain_worker clean_sheet) one_image
    = Some (Generated pdfPath pageCount fileSize, Some d').
Proof.
  destruct process_clean_sheet_true as [out Hout].
  unfold generate_pdf. fold (globbed one_image).
  rewrite image_files_one_image.
  change (file_exists one_image ready_file) with true. cbn [negb].
  unfold generate_pdf_body. cbn [process_files].
  change (read_file one_image "img_1.png") with (Ok (A := list Init.Byte.byte) png_magic).
  cbn [bind]. rewrite Hout.
  cbn [bind save_png plain_worker app existsb negb orb map].
  unfold create_pdf. cbn [save_fault pdf_on bind].
  unfold read_file. rewrite lookup_cleanup_other.
  - rewrite lookup_write_same. cbn [bind]. do 4 eexists. reflexivity.
  - cbn [In]. intros [H | [H | [H | []]]]; discriminate H.
Qed.

(** One image with a card on it: the document, the directory cleaned. *)
Lemma generated_answer_witness :
  exists pdfPath pageCount fileSize d',
    pdfPath = "/data/job/output.pdf"%string
    /\ pageCount = length (globbed one_image)
    /\ (forall f, In f (globbed one_image) ->
                  @processed_with (synthetic clean_sheet) one_image f true)
    /\ (exists c,
           lookup d' "output.pdf" = Some (map (fun _ => Init.Byte.x25) c)
           /\ fileSize
              = (py_str (length (map (fun _ => Init.Byte.x25) c)) ++ " bytes")%string
           /\ (page_count c <= pageCount)%nat)
    /\ lookup d' ready_file = None
    /\ (forall f, In f (globbed one_image) ->
                  lookup d' f = None /\ lookup d' (processed_name f) = None)
    /\ (forall m, m <> "output.pdf"%string -> m <> ready_file ->
                  ~ In m (globbed one_image) ->
                  (forall f, In f (globbed one_image) -> m <> processed_name f) ->
                  lookup d' m = lookup one_image m).
Proof.
  destruct generate_pdf_clean_sheet as (pdfPath & pageCount & fileSize & d' & H).
  exists pdfPath, pageCount, fileSize, d'.
  exact (@generated_answer (synthetic clean_sheet) (plain_worker clean_sheet)
           one_image d' pdfPath fileSize pageCount H).
Defined.

(** A ready directory with notes only. *)
Lemma no_images_answer_witness :
  @generate_pdf (synthetic clean_sheet) (plain_worker clean_sheet) no_image
  = Some (HTTPException 400, None).
Proof.
  apply (@no_images_answer (synthetic clean_sheet) (plain_worker clean_sheet)).
  split; [ discriminate | ].
  intros name Hname. unfold no_image in Hname. cbn [lookup] in Hname.
  destruct (String.eqb "READY.txt" name) eqn:E1.
  - apply String.eqb_eq in E1. subst name. reflexivity.
  - destruct (String.eqb "notes.txt" name) eqn:E2; [ | contradiction ].
    apply String.eqb_eq in E2. subst name. reflexivity.
Defined.

(** An empty image file: neither decoder reads it. *)
Lemma undecodable_image_answer_witness :
  @generate_pdf (synthetic clean_sheet) (plain_worker clean_sheet) empty_image
  = Some (HTTPException 500, None).
Proof.
  apply (@undecodable_image_answer (synthetic clean_sheet)
           (plain_worker clean_sheet) empty_image "img_1.png" []
           (LibraryError 1)).
  - discriminate.
  - reflexivity.
  - reflexivity.
  - reflexivity.
Defined.

(** ** Frames without a usable contour *)

Lemma for_first_none {A B : Type} (xs : list A) (body : A -> result (option B)) :
  (forall x, In x xs -> body x = Ok None) -> for_first xs body = Ok None.
Proof.
  induction xs as [ | x rest IH]; intros H; cbn [for_first]; [ reflexivity | ].
  rewrite (H x) by (left; reflexivity). cbn [bind].
  apply IH. intros y Hy. apply H. right. assumption.
Qed.

Section NoContour.

Context {lib : ImagingLib}.

(** X21: when every extracted contour is filtered out (fewer than 4
    vertices, an area below 5% or above 98% of the working frame, or a
    perimeter of 0), the Contour Selector answers none without asking for
    any polygon approximation. *)
Theorem find_best_contour_filtered (edged : image) (img_shape : Z * Z)
  (ratio : R) (contours : list contour) :
  findContours edged = Ok contours ->
  (forall c, In c contours ->
     (length c < 4)%nat
     \/ contourArea c < IZR (fst img_shape * snd img_shape) * 0.05
     \/ IZR (fst img_shape * snd img_shape) * 0.98 < contourArea c
     \/ arcLength c = 0) ->
  _find_best_contour edged img_shape ratio = Ok None.
Proof.
  intros Hfind Hfiltered.
  unfold _find_best_contour, _find_best_contour_body. rewrite Hfind.
  cbn [bind]. destruct contours as [ | c0 rest]; [ reflexivity | ].
  rewrite for_first_none; [ reflexivity | ].
  intros c Hc. apply In_firstn in Hc.
  apply (proj1 (In_sorted_by_area _ _)) in Hc.
  unfold try_contour.
  destruct (length c <? 4)%nat eqn:Hlen; [ reflexivity | ].
  cbn [cv2_contourArea bind try_except].
  destruct (Rltb (contourArea c) _) eqn:Hlo; [ reflexivity | ].
  destruct (Rltb _ (contourArea c)) eqn:Hhi; [ reflexivity | ].
  destruct (Reqb (arcLength c) 0) eqn:Hperi; [ reflexivity | ].
  exfalso. apply Nat.ltb_ge in Hlen. apply Rltb_false in Hlo, Hhi.
  apply Reqb_false in Hperi.
  destruct (Hfiltered c Hc) as [H | [H | [H | H]]]; lra || lia.
Qed.

Lemma find_best_contour_extracted (edged : image) (img_shape : Z * Z)
  (ratio : R) (q : list point) :
  _find_best_contour edged img_shape ratio = Ok (Some q) ->
  exists c rest, findContours edged = Ok (c :: rest).
Proof.
  unfold _find_best_contour, _find_best_contour_body.
  destruct (findContours edged) as [[ | c rest] | e]; cbn [bind try_except];
    try discriminate.
  eauto.
Qed.

Lemma scanner_extracted (img : image) (q : list point) :
  _find_document_corners_multi_strategy img = Ok (Some q) ->
  exists edged c rest, findContours edged = Ok (c :: rest).
Proof.
  assert (Hsel : forall edged shp r,
             _find_best_contour edged shp r = Ok (Some q) ->
             exists edged c rest, findContours edged = Ok (c :: rest)).
  { intros edged shp r H. exists edged.
    eapply find_best_contour_extracted. eassumption. }
  unfold _find_document_corners_multi_strategy.
  destruct (_strategy_edge_detection img) as [[c | ] | e] eqn:E1; cbn [bind];
    [ intros H; injection H as -> | | discriminate ].
  { unfold _strategy_edge_detection in E1.
    destruct (shape img) as [height width]. bind_inv E1.
    apply for_first_found in E1. destruct E1 as (pre & _ & E1). cbv beta in E1.
    apply for_first_found in E1. destruct E1 as ([low high] & _ & E1).
    cbv beta iota in E1. bind_inv E1. eapply Hsel. eassumption. }
  destruct (_strategy_adaptive_threshold img) as [[c | ] | e] eqn:E2; cbn [bind];
    [ intros H; injection H as -> | | discriminate ].
  { unfold _strategy_adaptive_threshold in E2.
    destruct (shape img) as [height width]. bind_inv E2.
    apply for_first_found in E2. destruct E2 as (thresh & _ & E2).
    cbv beta in E2. bind_inv E2. eapply Hsel. eassumption. }
  destruct (_strategy_color_segmentation img) as [[c | ] | e] eqn:E3; cbn [bind];
    [ intros H; injection H as -> | | discriminate ].
  { unfold _strategy_color_segmentation in E3.
    destruct (shape img) as [height width]. bind_inv E3.
    eapply Hsel. eassumption. }
  destruct (_strategy_morphological img) as [[c | ] | e] eqn:E4; cbn [bind];
    [ intros H; injection H as -> | discriminate | discriminate ].
  unfold _strategy_morphological in E4.
  destruct (shape img) as [height width]. bind_inv E4.
  eapply Hsel. eassumption.
Qed.

(** X22: with an imaging library that never extracts a contour (a blank
    frame), [process] never answers [transformed = true]. *)
Theorem blank_frame_not_transformed (image_bytes : list Init.Byte.byte)
  (out : image) :
  (forall edged contours, findContours edged = Ok contours -> contours = []) ->
  process image_bytes <> Ok (out, true).
Proof.
  intros Hblank Hproc.
  destruct (imdecode image_bytes) as [[img | ] | e] eqn:Hdec.
  - destruct (process_true_located _ _ _ Hdec Hproc) as (corners & Hscan & _).
    apply scanner_extracted in Hscan. destruct Hscan as (edged & c & rest & H).
    apply Hblank in H. discriminate.
  - unfold process, process_body in Hproc. rewrite Hdec in Hproc.
    cbn [bind try_except] in Hproc. fold (plain_decode image_bytes) in Hproc.
    apply plain_decode_flag in Hproc. contradiction.
  - unfold process, process_body in Hproc. rewrite Hdec in Hproc.
    cbn [bind try_except] in Hproc. fold (plain_decode image_bytes) in Hproc.
    apply plain_decode_flag in Hproc. contradiction.
Qed.

End NoContour.

(** Three contours, one with three vertices, one too small, one too
    large. *)
Lemma find_best_contour_filtered_witness :
  @_find_best_contour
    (synthetic {| frame_shape := (800, 1000)%Z;
                  extracted := Ok [ [(0, 0); (10, 0); (0, 10)];
                                    [(0, 0); (0, 100); (100, 100); (100, 0)];
                                    undented ];
                  approximation := fun c _ => Ok c;
                  sharpness_fault := None |})
    0%nat (800, 1000)%Z 1
  = Ok None.
Proof.
  eapply find_best_contour_filtered; [ reflexivity | ].
  cbn [fst snd]. change (800 * 1000)%Z with 800000%Z.
  intros c [<- | [<- | [<- | []]]].
  - left. cbn [length]. lia.
  - right; left.
    replace (contourArea [(0, 0); (0, 100); (100, 100); (100, 0)]) with 10000;
      [ lra | ].
    unfold contourArea. cbn [last shoelace_from fst snd].
    unfold Rabs. destruct (Rcase_abs _); lra.
  - right; right; left.
    replace (contourArea undented) with 798201; [ lra | ].
    unfold contourArea, undented. cbn [last shoelace_from fst snd].
    unfold Rabs. destruct (Rcase_abs _); lra.
Defined.

(** The blank frame. *)
Lemma blank_frame_not_transformed_witness :
  @process (synthetic blank_frame) png_magic <> Ok (7%nat, true).
Proof.
  apply (@blank_frame_not_transformed (synthetic blank_frame)).
  intros edged contours H. cbn in H. injection H as <-. reflexivity.
Defined.

(** ** Images of size zero *)

Section ZeroSize.

Context {pdf : PdfLib}.

(** X23: an image file whose width or height is 0 is skipped by
    [create_pdf]: the division for the scale raises, nothing is drawn for
    it, and the loop goes on with the next image and the next position. *)
Theorem zero_size_image_skipped (idx : nat) (img_path : string) (iw ih : Z)
  (rest : list string) (c : list canvas_op) :
  image_size img_path = Ok (iw, ih) -> (iw = 0 \/ ih = 0)%Z ->
  draw_page idx img_path = Raise ZeroDivisionError
  /\ draw_pages c idx (img_path :: rest) = draw_pages c (S idx) rest.
Proof.
  intros Hsize Hzero.
  assert (H : draw_page idx img_path = Raise ZeroDivisionError).
  { unfold draw_page. destruct A4 as [page_width page_height].
    rewrite Hsize. cbn [bind]. unfold py_div.
    destruct (Req_dec_T (IZR iw) 0) as [E | N]; [ reflexivity | ].
    cbn [bind]. destruct (Req_dec_T (IZR ih) 0) as [E | N']; [ reflexivity | ].
    exfalso. destruct Hzero as [-> | ->]; [ apply N | apply N' ]; reflexivity. }
  split; [ assumption | ]. cbn [draw_pages]. rewrite H. reflexivity.
Qed.

End ZeroSize.

(** A file that Pillow opens as an image of width 0. *)
Lemma zero_size_image_skipped_witness :
  let pdf := {| A4 := (595.27, 841.89);
                now_text := "2025-01-01 00:00:00";
                image_size := fun _ => Ok (0, 600)%Z;
                drawImage_fault := fun _ => Ok tt;
                save_fault := fun _ => Ok tt |} in
  @draw_page pdf 1 "flat.png" = Raise ZeroDivisionError
  /\ @draw_pages pdf [] 1 ["flat.png"%string] = @draw_pages pdf [] 2 [].
Proof.
  intros pdf.
  apply (@zero_size_image_skipped pdf 1 "flat.png" 0 600 [] []).
  - reflexivity.
  - left. reflexivity.
Defined.

(** ** The answer of the handler when nothing faults *)

Section HandlerCompleteness.

Context {lib : ImagingLib} {worker : WorkerLib}.





End HandlerCompleteness.

